(** * Playit tasks backend: the read-through cache over the Excel catalogue

    A shallow embedding of [TaskService] (src/core/services/tasks.py) and
    [ExcelService] (src/core/services/excel.py).  Python values are an
    inductive type, exceptions are values of [exn], and every function that
    touches Redis, the file system or raises is a computation in the state
    and exception monad [Py].  The third-party functions the services call
    ([json.loads], [json.dumps], [DataFrame.to_json]) are the fields of the
    class [PyLib], so the theorems on the services hold for every
    behaviour of those functions; [JsonFragment] is an executable instance,
    proved to read back what it prints, with which the theorems are
    evaluated on concrete worlds. *)

From Stdlib Require Import SpecFloat Ascii.
From stdpp Require Import gmap strings list pretty.

Open Scope string_scope.
Open Scope Z_scope.

Set Warnings "-register-all".

(** ** Python values *)

(** What [json.loads] can return: [None], [bool], [int], [float], [str],
    [list] and [dict] with string keys (in insertion order). *)
Inductive pyval : Type :=
| PNone
| PBool (b : bool)
| PInt (n : Z)
| PFloat (f : spec_float)
| PStr (s : string)
| PList (items : list pyval)
| PDict (items : list (string * pyval)).

Definition float_is_zero (f : spec_float) : bool :=
  match f with
  | S754_zero _ => true
  | _ => false
  end.

Definition str_truthy (s : string) : bool :=
  match s with
  | EmptyString => false
  | String _ _ => true
  end.

(** [bool(v)]: the test behind [if v:] and [if not v:]. *)
Definition truthy (v : pyval) : bool :=
  match v with
  | PNone => false
  | PBool b => b
  | PInt n => negb (n =? 0)
  | PFloat f => negb (float_is_zero f)
  | PStr s => str_truthy s
  | PList items => match items with [] => false | _ :: _ => true end
  | PDict items => match items with [] => false | _ :: _ => true end
  end.

(** [bool(x)] for the result of [redis_client.get]: [None] or [bytes]. *)
Definition bytes_truthy (x : option string) : bool :=
  match x with
  | None => false
  | Some s => str_truthy s
  end.

(** [a or b] on strings. *)
Definition str_or (a b : string) : string :=
  if str_truthy a then a else b.

(** [s.endswith(suffix)]. *)
Definition endswith (s suffix : string) : bool :=
  let n := String.length s in
  let k := String.length suffix in
  (k <=? n)%nat && String.eqb (String.substring (n - k) k s) suffix.

(** ** Exceptions *)

(** The exceptions of the model all derive from [Exception]:
    [fastapi.HTTPException], [json.JSONDecodeError], and any other class
    (Redis errors, [ValueError], [TypeError], [UnicodeDecodeError], ...)
    by its name and message. *)
Inductive exn : Type :=
| HTTPException (status_code : Z) (detail : string)
| JSONDecodeError (msg : string)
| PyException (cls : string) (msg : string).

Inductive py_result (A : Type) : Type :=
| Return (a : A)
| Raise (e : exn).
Arguments Return {A} a.
Arguments Raise {A} e.

(** [except Exception]. *)
Definition except_Exception (e : exn) : bool := true.

(** [except json.JSONDecodeError]. *)
Definition except_JSONDecodeError (e : exn) : bool :=
  match e with
  | JSONDecodeError _ => true
  | _ => false
  end.

Definition HTTP_200_OK : Z := 200.
Definition HTTP_400_BAD_REQUEST : Z := 400.
Definition HTTP_404_NOT_FOUND : Z := 404.
Definition HTTP_422_UNPROCESSABLE_ENTITY : Z := 422.

(** ** Settings (src/core/utils/config.py) *)

Record RedisSettings : Type := mkRedisSettings {
  CACHE_KEY : string;
  CACHE_EXPIRE : Z
}.

Record Settings : Type := mkSettings {
  redis : RedisSettings
}.

(** The values used when the environment sets neither variable. *)
Definition default_settings : Settings :=
  {| redis := {| CACHE_KEY := "tasks:all"; CACHE_EXPIRE := 21600 |} |}.

(** ** Response schema *)

(** Modelled from the spec: [ParseTasksResponse] (src/core/schemas/tasks.py
    is not among the sources) is the response envelope of status code,
    detail string and payload, built with keyword arguments [status],
    [details] and [data]. *)
Record ParseTasksResponse : Type := mkResponse {
  status : Z;
  details : string;
  data : pyval
}.

(** ** Pandas frames and the workbook on disk *)

(** A frame as [read_excel] returns it: the column labels and the data
    rows, the cells held in the form [to_json] emits them. *)
Record DataFrame : Type := mkDataFrame {
  columns : list string;
  rows : list (list pyval)
}.

(** [df.empty]: some axis has length 0. *)
Definition df_empty (df : DataFrame) : bool :=
  match columns df, rows df with
  | _ :: _, _ :: _ => false
  | _, _ => true
  end.

(** One record per row, keyed by column label: the list that
    [to_json(orient="records")] describes. *)
Definition record_of (cols : list string) (row : list pyval) : pyval :=
  PDict (zip cols row).

Definition records_of (df : DataFrame) : list pyval :=
  record_of (columns df) <$> rows df.

(** ** The world: Redis, the file system, and a call log *)

Inductive call : Type :=
| CallRedisGet (key : string)
| CallRedisDelete (key : string)
| CallRedisSet (key value : string) (ex : Z)
| CallReadExcel (path sheet : string)
| CallParseShop.

(** [redis_db] maps a key to its value and the expiry it was set with;
    time does not pass in the model, so an entry stays until it is
    overwritten or deleted.
    [redis_faults] is the store's failure schedule: each Redis command
    consumes the head; [Some e] makes that command raise [e] and leave the
    store as it was, [None] (or an exhausted schedule) lets it run.
    [files] maps a path to the sheets of the workbook stored there.
    [calls] is a ghost log of the commands issued, oldest first. *)
Record State : Type := mkState {
  redis_db : gmap string (string * Z);
  redis_faults : list (option exn);
  files : gmap string (gmap string DataFrame);
  calls : list call
}.

(** ** The monad of Python computations *)

Definition Py (A : Type) : Type := State -> py_result A * State.

Definition ret {A : Type} (a : A) : Py A := fun st => (Return a, st).

Definition raise {A : Type} (e : exn) : Py A := fun st => (Raise e, st).

Definition bind {A B : Type} (m : Py A) (k : A -> Py B) : Py B :=
  fun st =>
    match m st with
    | (Return a, st') => k a st'
    | (Raise e, st') => (Raise e, st')
    end.

(** The outcome of a pure library call, as a computation. *)
Definition lift {A : Type} (r : py_result A) : Py A := fun st => (r, st).

(** [try: body / except <class> as e: handler e]. *)
Definition try_except {A : Type} (body : Py A) (class : exn -> bool)
    (handler : exn -> Py A) : Py A :=
  fun st =>
    match body st with
    | (Return a, st') => (Return a, st')
    | (Raise e, st') => if class e then handler e st' else (Raise e, st')
    end.

Notation "'do' x <- m ; k" := (bind m (fun x => k))
  (at level 10, x name, m at level 100, k at level 200, only parsing).

Definition log_call (c : call) (st : State) : State :=
  {| redis_db := redis_db st; redis_faults := redis_faults st;
     files := files st; calls := calls st ++ [c] |}.

(** Append to the ghost log. *)
Definition note (c : call) : Py unit := fun st => (Return tt, log_call c st).

Definition set_db (db : gmap string (string * Z)) (st : State) : State :=
  {| redis_db := db; redis_faults := redis_faults st;
     files := files st; calls := calls st |}.

(** ** The Redis client *)

(** The client of the cache store is not among the sources; the three
    commands the services use are modelled from the spec's cache store
    interface.  Every command is logged, then consumes its slot of the
    failure schedule and either raises what the slot holds or runs. *)
Definition next_fault (st : State) : option exn * State :=
  match redis_faults st with
  | [] => (None, st)
  | f :: fs =>
      (f, {| redis_db := redis_db st; redis_faults := fs;
             files := files st; calls := calls st |})
  end.

Definition redis_command {A : Type} (c : call)
    (run : State -> py_result A * State) : Py A :=
  fun st =>
    match next_fault (log_call c st) with
    | (Some e, st') => (Raise e, st')
    | (None, st') => run st'
    end.

(** Modelled from the spec: [redis_client.get] (src/core/redis_client.py is
    not among the sources) is [get(key) -> bytes|absent]. *)
Definition redis_get (key : string) : Py (option string) :=
  redis_command (CallRedisGet key)
    (fun st => (Return (fst <$> redis_db st !! key), st)).

(** Modelled from the spec: [redis_client.set] (src/core/redis_client.py is
    not among the sources) is [set(key, bytes, ttl_seconds) -> ok]; the
    server refuses an expiry that is not positive. *)
Definition redis_set (key value : string) (ex : Z) : Py unit :=
  redis_command (CallRedisSet key value ex)
    (fun st =>
       if ex <=? 0
       then (Raise (PyException "ResponseError" "invalid expire time"), st)
       else (Return tt, set_db (<[key := (value, ex)]> (redis_db st)) st)).

(** Modelled from the spec: [redis_client.delete] (src/core/redis_client.py
    is not among the sources) is [delete(key) -> ok]. *)
Definition redis_delete (key : string) : Py unit :=
  redis_command (CallRedisDelete key)
    (fun st => (Return tt, set_db (delete key (redis_db st)) st)).

(** ** Reading the workbook *)

(** [pandas.read_excel(path, sheet_name=sheet)]: raises when the file or
    the named worksheet is missing. *)
Definition read_excel (path sheet : string) : Py DataFrame :=
  fun st =>
    let st' := log_call (CallReadExcel path sheet) st in
    match files st !! path with
    | None =>
        (Raise (PyException "FileNotFoundError"
                  ("[Errno 2] No such file or directory: '" +:+ path +:+ "'")),
         st')
    | Some book =>
        match book !! sheet with
        | None =>
            (Raise (PyException "ValueError"
                      ("Worksheet named '" +:+ sheet +:+ "' not found")),
             st')
        | Some df => (Return df, st')
        end
    end.

(** ** Library functions *)

(** [json.loads], [json.dumps] and [DataFrame.to_json(orient="records")].
    Each returns a value or raises. *)
Class PyLib : Type := mkPyLib {
  json_loads : string -> py_result pyval;
  json_dumps : pyval -> py_result string;
  to_json : DataFrame -> py_result string
}.

(** [json.loads(x)] where [x] may be [None]. *)
Definition json_loads_opt `{PyLib} (x : option string) : py_result pyval :=
  match x with
  | None =>
      Raise (PyException "TypeError"
               "the JSON object must be str, bytes or bytearray, not NoneType")
  | Some s => json_loads s
  end.

(** ** ExcelService (src/core/services/excel.py) *)

Section Services.
Context `{lib : PyLib}.
Variable settings : Settings.

Definition sheet_name : string := "Персонажи".

(** The body of [parse_shop] from the extension check on, for the path
    bound to [file_path]. *)
Definition parse_shop_at (file_path : string) : Py ParseTasksResponse :=
  if negb (endswith file_path (str_or ".xlsx" ".xls")) then
    raise (HTTPException HTTP_422_UNPROCESSABLE_ENTITY "Unprocessable content")
  else
    do exel_shop_df <- read_excel file_path sheet_name ;
    if df_empty exel_shop_df then
      raise (HTTPException HTTP_404_NOT_FOUND "Такой таблицы не существует")
    else
      do json_data <- lift (to_json exel_shop_df) ;
      do formatted_json_data <- lift (json_loads json_data) ;
      if negb (truthy formatted_json_data) then
        raise (HTTPException HTTP_400_BAD_REQUEST
                 "Ошибка при форматировании данных из таблицы")
      else
        ret {| status := HTTP_200_OK;
               details := "Данные получены напрямую из Excel файла.";
               data := formatted_json_data |}.

Definition file_path : string := "PlayIT.xlsx".

(** [parse_shop(request)]; the request is not used (the JWT check of
    lines 13-15 is commented out).  Entering the function is logged. *)
Definition parse_shop : Py ParseTasksResponse :=
  do _ <- note CallParseShop ;
  parse_shop_at file_path.

(** ** TaskService (src/core/services/tasks.py)

    The calls to [logger] are left out; [await] of [parse_shop], which
    never suspends, is an ordinary call. *)

Definition _get_cached_data : Py (option string) :=
  try_except
    (do data <- redis_get (CACHE_KEY (redis settings)) ;
     ret data)
    except_Exception
    (fun e => ret None).

Definition _parse_cached_data (cached_data : option string) : Py pyval :=
  try_except
    (do parsed <- lift (json_loads_opt cached_data) ;
     ret parsed)
    except_JSONDecodeError
    (fun e =>
       do _ <- try_except
              (redis_delete (CACHE_KEY (redis settings)))
              except_Exception
              (fun delete_error => ret tt) ;
       ret PNone).

Definition _cache_response (response : ParseTasksResponse) : Py unit :=
  try_except
    (do serialized <- lift (json_dumps (data response)) ;
     redis_set (CACHE_KEY (redis settings)) serialized
       (CACHE_EXPIRE (redis settings)))
    except_Exception
    (fun e => ret tt).

(** Lines 82-89 of [get_all_tasks]: parse the workbook, write back, return
    the parsed response. *)
Definition fetch_from_source : Py ParseTasksResponse :=
  do response <- parse_shop ;
  do _ <- _cache_response response ;
  ret response.

Definition get_all_tasks : Py ParseTasksResponse :=
  do cached_data <- _get_cached_data ;
  if bytes_truthy cached_data then
    do parsed_data <- _parse_cached_data cached_data ;
    if truthy parsed_data then
      ret {| status := HTTP_200_OK;
             details := "Данные получены из кеша.";
             data := parsed_data |}
    else fetch_from_source
  else fetch_from_source.

End Services.

(** ** Observations on runs

    Definitions the statements below are phrased with. *)

(** The Redis command issued [n] commands from now is not scheduled to
    fail. *)
Definition command_ok (n : nat) (st : State) : bool :=
  match redis_faults st !! n with
  | Some (Some _) => false
  | _ => true
  end.

(** The Redis command issued [n] commands from now is scheduled to raise
    [e]. *)
Definition command_raises (n : nat) (e : exn) (st : State) : Prop :=
  redis_faults st !! n = Some (Some e).

(** The state once a Redis command has been logged and has consumed its
    slot of the failure schedule. *)
Definition issued (c : call) (st : State) : State :=
  snd (next_fault (log_call c st)).
Arguments issued : simpl never.

Definition is_redis_set (c : call) : bool :=
  match c with
  | CallRedisSet _ _ _ => true
  | _ => false
  end.

Definition is_redis_delete (c : call) : bool :=
  match c with
  | CallRedisDelete _ => true
  | _ => false
  end.

Definition is_parse_shop (c : call) : bool :=
  match c with
  | CallParseShop => true
  | _ => false
  end.


(** How many times the Source Reader was entered. *)
Definition parse_shop_count (st : State) : nat :=
  length (filter (fun c => is_parse_shop c = true) (calls st)).

Definition cached_response (v : pyval) : ParseTasksResponse :=
  {| status := HTTP_200_OK; details := "Данные получены из кеша."; data := v |}.

Definition source_response (v : pyval) : ParseTasksResponse :=
  {| status := HTTP_200_OK;
     details := "Данные получены напрямую из Excel файла.";
     data := v |}.

Section Observations.
Context `{lib : PyLib}.
Variable settings : Settings.

(** The state [_cache_response] leaves. *)
Definition after_cache_response (r : ParseTasksResponse) (st : State) : State :=
  match json_dumps (data r) with
  | Raise _ => st
  | Return s =>
      if command_ok 0 st && (0 <? CACHE_EXPIRE (redis settings))
      then set_db
             (<[CACHE_KEY (redis settings) := (s, CACHE_EXPIRE (redis settings))]>
                (redis_db st))
             (issued (CallRedisSet (CACHE_KEY (redis settings)) s
                       (CACHE_EXPIRE (redis settings))) st)
      else issued (CallRedisSet (CACHE_KEY (redis settings)) s
                    (CACHE_EXPIRE (redis settings))) st
  end.

(** What [_get_cached_data] returns from [st]. *)
Definition cached_value (st : State) : option string :=
  if command_ok 0 st
  then fst <$> redis_db st !! CACHE_KEY (redis settings)
  else None.

(** The Redis commands [_cache_response] issues. *)
Definition cache_response_calls (r : ParseTasksResponse) : list call :=
  match json_dumps (data r) with
  | Return s =>
      [CallRedisSet (CACHE_KEY (redis settings)) s (CACHE_EXPIRE (redis settings))]
  | Raise _ => []
  end.

(** The calls [fetch_from_source] makes from [st]. *)
Definition fetch_calls (st : State) : list call :=
  CallParseShop :: CallReadExcel file_path sheet_name ::
  match fst (parse_shop st) with
  | Return r => cache_response_calls r
  | Raise _ => []
  end.

End Observations.


(** ** An executable instance of the library functions

    A printer and a parser for the JSON fragment of [null], [true], [false],
    integers, strings of printable ASCII without quotes, slashes or
    backslashes, arrays and objects.  On this fragment they follow [json.dumps] (with its
    default separators), [DataFrame.to_json] (compact separators) and
    [json.loads]; text or values outside the fragment are reported as
    [NotImplementedError] rather than decoded or rejected.  The instance is
    what the examples are evaluated with.

    [json.loads] is given bytes by the cache and text by [to_json].  A
    string stands for both here, text being held as its UTF-8 bytes, and
    [loads] starts as [json.loads] does on bytes, with
    [s.decode(detect_encoding(s), 'surrogatepass')]: bytes below 128 in
    UTF-8 decode to themselves, a first byte from 128 on that starts no
    UTF-8 sequence raises [UnicodeDecodeError], and everything else
    (another encoding, text beyond ASCII) is outside the fragment. *)
Module JsonFragment.

Definition unsupported {A : Type} : py_result A :=
  Raise (PyException "NotImplementedError" "outside the JSON fragment").

Definition plain_char (c : ascii) : bool :=
  let n := nat_of_ascii c in
  (32 <=? n)%nat && (n <=? 126)%nat
  && negb (n =? 34)%nat && negb (n =? 47)%nat && negb (n =? 92)%nat.

Fixpoint plain_string (s : string) : bool :=
  match s with
  | EmptyString => true
  | String c s' => plain_char c && plain_string s'
  end.

Definition dquote : ascii := ascii_of_nat 34.

Definition quote (s : string) : string :=
  String dquote (s +:+ String dquote "").

Fixpoint join (sep : string) (parts : list string) : string :=
  match parts with
  | [] => ""
  | [p] => p
  | p :: ps => p +:+ sep +:+ join sep ps
  end.

(** [f] on every element, if it succeeds on all of them. *)
Fixpoint traverse {A B : Type} (f : A -> option B) (l : list A)
    : option (list B) :=
  match l with
  | [] => Some []
  | x :: l' =>
      match f x, traverse f l' with
      | Some y, Some ys => Some (y :: ys)
      | _, _ => None
      end
  end.

Definition bracket (open close : string) (item_sep : string)
    (parts : option (list string)) : option string :=
  match parts with
  | Some parts => Some (open +:+ join item_sep parts +:+ close)
  | None => None
  end.

Definition print_member (key_sep : string) (k : string) (x : option string)
    : option string :=
  match x with
  | Some s => if plain_string k then Some (quote k +:+ key_sep +:+ s) else None
  | None => None
  end.

(** A dict is printed only if its keys are distinct, as the keys of a
    Python dict are. *)
Fixpoint print (item_sep key_sep : string) (v : pyval) : option string :=
  match v with
  | PNone => Some "null"
  | PBool true => Some "true"
  | PBool false => Some "false"
  | PInt n => Some (pretty n)
  | PFloat _ => None
  | PStr s => if plain_string s then Some (quote s) else None
  | PList items =>
      bracket "[" "]" item_sep (traverse (print item_sep key_sep) items)
  | PDict items =>
      if bool_decide (NoDup (fst <$> items)) then
        bracket "{" "}" item_sep
          (traverse
             (fun kv => print_member key_sep (fst kv)
                          (print item_sep key_sep (snd kv)))
             items)
      else None
  end.

Definition of_option {A : Type} (o : option A) : py_result A :=
  match o with
  | Some a => Return a
  | None => unsupported
  end.

Definition dumps (v : pyval) : py_result string :=
  of_option (print ", " ": " v).

Definition frame_to_json (df : DataFrame) : py_result string :=
  of_option (print "," ":" (PList (records_of df))).

(** *** Decoding *)

Fixpoint byte_values (s : string) : list nat :=
  match s with
  | EmptyString => []
  | String c s' => nat_of_ascii c :: byte_values s'
  end.

Inductive encoding : Type :=
| Utf8 | Utf8Sig | Utf16 | Utf16Be | Utf16Le | Utf32 | Utf32Be | Utf32Le.

Definition bstartswith (prefix b : list nat) : bool :=
  bool_decide (take (length prefix) b = prefix).

(** The byte order marks of [codecs]. *)
Definition BOM_UTF32_BE : list nat := [0; 0; 254; 255]%nat.
Definition BOM_UTF32_LE : list nat := [255; 254; 0; 0]%nat.
Definition BOM_UTF16_BE : list nat := [254; 255]%nat.
Definition BOM_UTF16_LE : list nat := [255; 254]%nat.
Definition BOM_UTF8 : list nat := [239; 187; 191]%nat.

(** [json.detect_encoding]: a byte order mark, or the zero bytes among the
    first four (of two, when there are just two), tell UTF-16 and UTF-32
    from UTF-8. *)
Definition detect_encoding (b : list nat) : encoding :=
  if bstartswith BOM_UTF32_BE b || bstartswith BOM_UTF32_LE b then Utf32
  else if bstartswith BOM_UTF16_BE b || bstartswith BOM_UTF16_LE b then Utf16
  else if bstartswith BOM_UTF8 b then Utf8Sig
  else
    match b with
    | b0 :: b1 :: b2 :: b3 :: _ =>
        if (b0 =? 0)%nat then
          if (b1 =? 0)%nat then Utf32Be else Utf16Be
        else if (b1 =? 0)%nat then
          if (b2 =? 0)%nat && (b3 =? 0)%nat then Utf32Le else Utf16Le
        else Utf8
    | [b0; b1] =>
        if (b0 =? 0)%nat then Utf16Be
        else if (b1 =? 0)%nat then Utf16Le
        else Utf8
    | _ => Utf8
    end.

(** The bytes no UTF-8 sequence starts with: 0x80 to 0xC1 and 0xF5 to
    0xFF. *)
Definition invalid_start_byte (n : nat) : bool :=
  (128 <=? n)%nat && (n <=? 193)%nat || (245 <=? n)%nat.

Inductive decoded : Type :=
| Text (text : string)
| DecodeError (reason : string)
| OtherText.

(** [s.decode('utf-8', 'surrogatepass')], decided at the first byte from
    128 on.  The surrogatepass handler only repairs a sequence that starts
    with a byte 0xE0 to 0xEF, none of which is an invalid start byte. *)
Definition decode_utf8 (s : string) : decoded :=
  match find (fun n => (128 <=? n)%nat) (byte_values s) with
  | None => Text s
  | Some n =>
      if invalid_start_byte n then DecodeError "invalid start byte"
      else OtherText
  end.

Definition decode (s : string) : decoded :=
  match detect_encoding (byte_values s) with
  | Utf8 => decode_utf8 s
  | _ => OtherText
  end.

(** *** Parsing *)

Inductive parsed (A : Type) : Type :=
| Parsed (a : A) (rest : string)
| Invalid
| Unsupported.
Arguments Parsed {A} a rest.
Arguments Invalid {A}.
Arguments Unsupported {A}.

Definition is_ws (c : ascii) : bool :=
  let n := nat_of_ascii c in
  (n =? 32)%nat || (n =? 9)%nat || (n =? 10)%nat || (n =? 13)%nat.

Fixpoint skip_ws (s : string) : string :=
  match s with
  | String c s' => if is_ws c then skip_ws s' else s
  | EmptyString => s
  end.

Definition digit_of (c : ascii) : option Z :=
  let n := nat_of_ascii c in
  if (48 <=? n)%nat && (n <=? 57)%nat then Some (Z.of_nat (n - 48)) else None.

Fixpoint parse_digits (acc : Z) (s : string) : Z * string :=
  match s with
  | String c s' =>
      match digit_of c with
      | Some d => parse_digits (10 * acc + d) s'
      | None => (acc, s)
      end
  | EmptyString => (acc, s)
  end.

Definition starts_fraction (s : string) : bool :=
  match s with
  | String c _ =>
      let n := nat_of_ascii c in (n =? 46)%nat || (n =? 101)%nat || (n =? 69)%nat
  | EmptyString => false
  end.

(** An optional minus sign, then 0 or a nonzero digit and more digits;
    a fraction or an exponent after it, and the constant [-Infinity], are
    outside the fragment. *)
Definition parse_int (s : string) : parsed pyval :=
  let '(neg, body) :=
    match s with
    | String c s' => if Ascii.eqb c "-" then (true, s') else (false, s)
    | EmptyString => (false, s)
    end in
  match body with
  | String c s' =>
      match digit_of c with
      | Some d =>
          let '(n, rest) := if d =? 0 then (0, s') else parse_digits d s' in
          if starts_fraction rest then Unsupported
          else Parsed (PInt (if neg then - n else n)) rest
      | None => if neg && Ascii.eqb c "I" then Unsupported else Invalid
      end
  | EmptyString => Invalid
  end.

(** The text after an opening quote, up to the closing one. *)
Fixpoint parse_string_body (s : string) : parsed string :=
  match s with
  | EmptyString => Invalid
  | String c s' =>
      if Ascii.eqb c dquote then Parsed "" s'
      else if plain_char c then
        match parse_string_body s' with
        | Parsed body rest => Parsed (String c body) rest
        | Invalid => Invalid
        | Unsupported => Unsupported
        end
      else if (nat_of_ascii c <? 32)%nat then Invalid
      else Unsupported
  end.

(** [s] without its prefix [word], if it starts with it. *)
Fixpoint drop_prefix (word s : string) : option string :=
  match word, s with
  | EmptyString, _ => Some s
  | String a word', String b s' =>
      if Ascii.eqb a b then drop_prefix word' s' else None
  | String _ _, EmptyString => None
  end.

Definition expect (word : string) (v : pyval) (s : string) : parsed pyval :=
  match drop_prefix word s with
  | Some rest => Parsed v rest
  | None => Invalid
  end.

(** [d[k] = v] on a dict kept in insertion order. *)
Fixpoint dict_set (k : string) (v : pyval) (d : list (string * pyval))
    : list (string * pyval) :=
  match d with
  | [] => [(k, v)]
  | (k', v') :: d' =>
      if String.eqb k k' then (k, v) :: d' else (k', v') :: dict_set k v d'
  end.

(** Elements separated by commas up to the closing bracket; the opening
    bracket and the empty case are handled by the caller. *)
Fixpoint parse_seq {A : Type} (elem : string -> parsed A) (close : ascii)
    (fuel : nat) (s : string) (acc : list A) : parsed (list A) :=
  match fuel with
  | O => Invalid
  | S fuel' =>
      match elem s with
      | Parsed a rest =>
          match skip_ws rest with
          | String c rest' =>
              if Ascii.eqb c ","
              then parse_seq elem close fuel' rest' (acc ++ [a])%list
              else if Ascii.eqb c close then Parsed (acc ++ [a])%list rest'
              else Invalid
          | EmptyString => Invalid
          end
      | Invalid => Invalid
      | Unsupported => Unsupported
      end
  end.

Definition parse_member (value : string -> parsed pyval) (s : string)
    : parsed (string * pyval) :=
  match skip_ws s with
  | String q s1 =>
      if Ascii.eqb q dquote then
        match parse_string_body s1 with
        | Parsed k s2 =>
            match skip_ws s2 with
            | String c s3 =>
                if Ascii.eqb c ":" then
                  match value s3 with
                  | Parsed v s4 => Parsed (k, v) s4
                  | Invalid => Invalid
                  | Unsupported => Unsupported
                  end
                else Invalid
            | EmptyString => Invalid
            end
        | Invalid => Invalid
        | Unsupported => Unsupported
        end
      else Invalid
  | EmptyString => Invalid
  end.

Fixpoint parse_value (fuel : nat) (s : string) : parsed pyval :=
  match fuel with
  | O => Invalid
  | S fuel' =>
      match skip_ws s with
      | EmptyString => Invalid
      | String c s' as s0 =>
          if Ascii.eqb c "n" then expect "null" PNone s0
          else if Ascii.eqb c "t" then expect "true" (PBool true) s0
          else if Ascii.eqb c "f" then expect "false" (PBool false) s0
          else if Ascii.eqb c "N" || Ascii.eqb c "I" then Unsupported
          else if Ascii.eqb c dquote then
            match parse_string_body s' with
            | Parsed body rest => Parsed (PStr body) rest
            | Invalid => Invalid
            | Unsupported => Unsupported
            end
          else if Ascii.eqb c "[" then
            match drop_prefix "]" (skip_ws s') with
            | Some rest => Parsed (PList []) rest
            | None =>
                match parse_seq (parse_value fuel') "]" (String.length s') s' [] with
                | Parsed items rest => Parsed (PList items) rest
                | Invalid => Invalid
                | Unsupported => Unsupported
                end
            end
          else if Ascii.eqb c "{" then
            match drop_prefix "}" (skip_ws s') with
            | Some rest => Parsed (PDict []) rest
            | None =>
                match parse_seq (parse_member (parse_value fuel')) "}"
                        (String.length s') s' [] with
                | Parsed items rest =>
                    Parsed (PDict (fold_left (fun d kv => dict_set (fst kv) (snd kv) d)
                                     items [])) rest
                | Invalid => Invalid
                | Unsupported => Unsupported
                end
            end
          else parse_int s0
      end
  end.

(** The decoder on decoded text. *)
Definition loads_text (s : string) : py_result pyval :=
  match parse_value (S (String.length s)) s with
  | Parsed v rest =>
      match skip_ws rest with
      | EmptyString => Return v
      | String _ _ => Raise (JSONDecodeError "Extra data")
      end
  | Invalid => Raise (JSONDecodeError "Expecting value")
  | Unsupported => unsupported
  end.

(** The message of the [UnicodeDecodeError] is its reason. *)
Definition loads (s : string) : py_result pyval :=
  match decode s with
  | Text text => loads_text text
  | DecodeError reason => Raise (PyException "UnicodeDecodeError" reason)
  | OtherText => unsupported
  end.

(** *** What the round trip is stated with *)

(** What may follow a number: nothing, or a character that is neither a
    digit nor the start of a fraction or an exponent. *)
Definition ends_number (rest : string) : bool :=
  match rest with
  | EmptyString => true
  | String c _ =>
      match digit_of c with
      | Some _ => false
      | None => negb (starts_fraction rest)
      end
  end.

(** What may follow a printed value: nothing, a comma or a closing
    bracket. *)
Definition follows (rest : string) : bool :=
  match rest with
  | EmptyString => true
  | String c _ => Ascii.eqb c "," || Ascii.eqb c "]" || Ascii.eqb c "}"
  end.

(** Text of bytes 1 to 127. *)
Definition seven_bit (s : string) : Prop :=
  Forall (fun n => (0 < n < 128)%nat) (byte_values s).

(** The nesting depth of a value. *)
Fixpoint depth (v : pyval) : nat :=
  match v with
  | PList items => S (foldr (fun x d => Nat.max (depth x) d) 0%nat items)
  | PDict items => S (foldr (fun kv d => Nat.max (depth (snd kv)) d) 0%nat items)
  | _ => 1%nat
  end.

(** [elem] reads the text [p], after blanks and before a delimiter, as
    [a]. *)
Definition parses_as {A : Type} (elem : string -> parsed A) (p : string) (a : A)
    : Prop :=
  forall w r,
    skip_ws w = "" -> follows r = true -> elem (w +:+ p +:+ r) = Parsed a r.

#[export] Instance lib : PyLib :=
  {| json_loads := loads; json_dumps := dumps; to_json := frame_to_json |}.

End JsonFragment.

(** ** Example worlds *)

(** The catalogue of three rows. *)
Definition catalogue : DataFrame :=
  {| columns := ["name"; "price"];
     rows := [[PStr "A"; PInt 10]; [PStr "B"; PInt 20]; [PStr "C"; PInt 30]] |}.

Definition header_only : DataFrame :=
  {| columns := ["name"; "price"]; rows := [] |}.

Definition disk_with (sheet : string) (df : DataFrame)
    : gmap string (gmap string DataFrame) :=
  {[ "PlayIT.xlsx" := {[ sheet := df ]} ]}.

Definition world (db : gmap string (string * Z)) (faults : list (option exn))
    (disk : gmap string (gmap string DataFrame)) : State :=
  {| redis_db := db; redis_faults := faults; files := disk; calls := [] |}.

Definition cache_holding (value : string) : gmap string (string * Z) :=
  {[ "tasks:all" := (value, 21600) ]}.

Definition connection_error : exn :=
  PyException "ConnectionError" "Connection refused".

Definition text_of (r : py_result string) : string :=
  match r with
  | Return s => s
  | Raise _ => ""
  end.

(** The catalogue's records as [json.dumps] and as [to_json] write them. *)
Definition catalogue_dumped : string :=
  Eval vm_compute in text_of (JsonFragment.dumps (PList (records_of catalogue))).

Definition catalogue_to_json : string :=
  Eval vm_compute in text_of (JsonFragment.frame_to_json catalogue).

Definition catalogue_disk : gmap string (gmap string DataFrame) :=
  disk_with "Персонажи" catalogue.

(** Empty cache, reliable store, the catalogue on disk. *)
Definition cold_world : State := world ∅ [] catalogue_disk.

(** The cache holds the serialized catalogue. *)
Definition warm_world : State :=
  world (cache_holding catalogue_dumped) [] catalogue_disk.

(** The cache holds the text of an empty list. *)
Definition stale_world : State := world (cache_holding "[]") [] catalogue_disk.

(** The first Redis command fails. *)
Definition unreachable_world : State :=
  world ∅ [Some connection_error] catalogue_disk.

(** The second Redis command fails. *)
Definition flaky_world : State :=
  world ∅ [None; Some connection_error] catalogue_disk.

(** The cache holds text that is not JSON; the second Redis command
    fails. *)
Definition corrupt_world : State :=
  world (cache_holding "{not json") [None; Some connection_error] catalogue_disk.

(** The sheet has a header and no rows. *)
Definition empty_sheet_world : State :=
  world ∅ [] (disk_with "Персонажи" header_only).

Definition corrupt_empty_sheet_world : State :=
  world (cache_holding "{not json") [] (disk_with "Персонажи" header_only).

(** The workbook has no sheet named "Персонажи". *)
Definition missing_sheet_world : State :=
  world ∅ [] (disk_with "Sheet1" catalogue).

(** ** Sequences of calls

    Definitions for the statements on repeated calls, on a workbook that
    changes between calls, and on the commands a call issues. *)

Section Sequences.
Context `{lib : PyLib}.
Variable settings : Settings.

(** [n] calls of [get_all_tasks] one after the other: their outcomes, in
    order, and the state they leave. *)
Fixpoint call_n (n : nat) (st : State)
    : list (py_result ParseTasksResponse) * State :=
  match n with
  | O => ([], st)
  | S n' =>
      let '(r, st1) := get_all_tasks settings st in
      let '(rs, st2) := call_n n' st1 in
      (r :: rs, st2)
  end.

(** The state in which lines 82-89 start after a cached value has raised
    [JSONDecodeError]: the get and the delete have been issued. *)
Definition after_corrupt_entry (st : State) : State :=
  let st1 := issued (CallRedisGet (CACHE_KEY (redis settings))) st in
  if command_ok 0 st1
  then set_db (delete (CACHE_KEY (redis settings)) (redis_db st1))
         (issued (CallRedisDelete (CACHE_KEY (redis settings))) st1)
  else issued (CallRedisDelete (CACHE_KEY (redis settings))) st1.

End Sequences.

(** The files replaced, the rest of the state kept. *)
Definition with_files (disk : gmap string (gmap string DataFrame)) (st : State)
    : State :=
  {| redis_db := redis_db st; redis_faults := redis_faults st;
     files := disk; calls := calls st |}.

Definition is_redis_get (c : call) : bool :=
  match c with
  | CallRedisGet _ => true
  | _ => false
  end.

Definition is_redis_command (c : call) : bool :=
  is_redis_get c || is_redis_delete c || is_redis_set c.

(** How many of the calls [cs] satisfy [p]. *)
Definition count_calls (p : call -> bool) (cs : list call) : nat :=
  length (filter (fun c => p c = true) cs).

(** ** The logging level (src/core/utils/config.py) *)

(** The values the type [Literal[...]] of [log_level] allows. *)
Definition log_levels : list string :=
  ["debug"; "info"; "warning"; "error"; "critical"].

(** [str.upper] on ASCII text. *)
Definition ascii_upper (c : ascii) : ascii :=
  let n := nat_of_ascii c in
  if (97 <=? n)%nat && (n <=? 122)%nat then ascii_of_nat (n - 32) else c.

Fixpoint str_upper (s : string) : string :=
  match s with
  | EmptyString => EmptyString
  | String c s' => String (ascii_upper c) (str_upper s')
  end.

(** [logging.getLevelNamesMapping()]. *)
Definition level_names_mapping : list (string * Z) :=
  [("CRITICAL", 50); ("FATAL", 50); ("ERROR", 40); ("WARN", 30);
   ("WARNING", 30); ("INFO", 20); ("DEBUG", 10); ("NOTSET", 0)].

(** [d[k]] on a dict with string keys. *)
Fixpoint dict_getitem (d : list (string * Z)) (k : string) : py_result Z :=
  match d with
  | [] => Raise (PyException "KeyError" k)
  | (k', v) :: d' => if String.eqb k k' then Return v else dict_getitem d' k
  end.

(** [LoggingSettings.log_level_value]. *)
Definition log_level_value (log_level : string) : py_result Z :=
  dict_getitem level_names_mapping (str_upper log_level).

(** A state in which every Redis command fails. *)
Definition down_world (n : nat) : State :=
  world (cache_holding catalogue_dumped) (replicate n (Some connection_error))
    catalogue_disk.

(** The byte 0xFF, which is not UTF-8. *)
Definition invalid_utf8 : string := String (ascii_of_nat 255) "".

(** The cache holds bytes that are not UTF-8; the store runs and the
    catalogue is on disk. *)
Definition undecodable_world : State :=
  world (cache_holding invalid_utf8) [] catalogue_disk.


(** No workbook on disk. *)
Definition no_file_world : State := world ∅ [] ∅.

(** The cache holds text that is not JSON; the store runs. *)
Definition corrupt_reliable_world : State :=
  world (cache_holding "{not json") [] catalogue_disk.

(** The expiry set to zero. *)
Definition zero_expiry_settings : Settings :=
  {| redis := {| CACHE_KEY := "tasks:all"; CACHE_EXPIRE := 0 |} |}.

(** * Properties *)

Section Properties.
Context `{lib : PyLib}.
Variable settings : Settings.

Local Abbreviation key := (CACHE_KEY (redis settings)).
Local Abbreviation ttl := (CACHE_EXPIRE (redis settings)).

(** ** The Redis client *)

Lemma issued_db c st : redis_db (issued c st) = redis_db st.
Proof. destruct st as [db [|f fl] fs cs]; done. Qed.

Lemma issued_files c st : files (issued c st) = files st.
Proof. destruct st as [db [|f fl] fs cs]; done. Qed.

Lemma issued_calls c st : calls (issued c st) = (calls st ++ [c])%list.
Proof. destruct st as [db [|f fl] fs cs]; done. Qed.

Lemma issued_faults c st : redis_faults (issued c st) = tail (redis_faults st).
Proof. destruct st as [db [|f fl] fs cs]; done. Qed.

Lemma command_ok_issued n c st :
  command_ok n (issued c st) = command_ok (S n) st.
Proof.
  unfold command_ok. rewrite issued_faults.
  by destruct (redis_faults st).
Qed.

Lemma redis_command_ok {A : Type} c (run : State -> py_result A * State) st :
  command_ok 0 st = true ->
  redis_command c run st = run (issued c st).
Proof.
  unfold command_ok, redis_command, issued, next_fault. simpl.
  destruct (redis_faults st) as [|[e|] fs]; simpl; done.
Qed.

Lemma redis_command_raises {A : Type} c (run : State -> py_result A * State) e st :
  command_raises 0 e st ->
  redis_command c run st = (Raise e, issued c st).
Proof.
  unfold command_raises, redis_command, issued, next_fault. simpl.
  destruct (redis_faults st) as [|[e'|] fs]; simpl; intros [=]; by subst.
Qed.

Lemma command_ok_or_raises n st :
  command_ok n st = true \/ exists e, command_raises n e st.
Proof.
  unfold command_ok, command_raises.
  destruct (redis_faults st !! n) as [[e|]|]; eauto.
Qed.

(** ** The Source Reader *)

Lemma file_path_accepted : endswith file_path (str_or ".xlsx" ".xls") = true.
Proof. reflexivity. Qed.

(** [parse_shop] only logs: it leaves Redis and the files as they were. *)
Lemma parse_shop_state st :
  snd (parse_shop st)
  = log_call (CallReadExcel file_path sheet_name) (log_call CallParseShop st).
Proof.
  unfold parse_shop, parse_shop_at, bind. rewrite file_path_accepted. simpl.
  unfold read_excel. simpl.
  destruct (files st !! file_path) as [book|]; [|done].
  destruct (book !! sheet_name) as [df|]; [|done].
  destruct (df_empty df); [done|].
  unfold lift, raise, ret.
  destruct (to_json df) as [js|e]; [|done].
  destruct (json_loads js) as [v|e]; [|done].
  by destruct (truthy v).
Qed.

(** Its outcome is a function of the files alone. *)
Lemma parse_shop_files_only st st' :
  files st = files st' -> fst (parse_shop st) = fst (parse_shop st').
Proof.
  intros Hfiles.
  unfold parse_shop, parse_shop_at, bind. rewrite file_path_accepted. simpl.
  unfold read_excel. simpl. rewrite <- Hfiles.
  destruct (files st !! file_path) as [book|]; [|done].
  destruct (book !! sheet_name) as [df|]; [|done].
  destruct (df_empty df); [done|].
  unfold lift, raise, ret.
  destruct (to_json df) as [js|e]; [|done].
  destruct (json_loads js) as [v|e]; [|done].
  by destruct (truthy v).
Qed.

Lemma parse_shop_run st :
  parse_shop st
  = (fst (parse_shop st),
     log_call (CallReadExcel file_path sheet_name) (log_call CallParseShop st)).
Proof. rewrite <- parse_shop_state. by destruct (parse_shop st). Qed.

(** What a successful read returns. *)
Lemma parse_shop_returns st r :
  fst (parse_shop st) = Return r ->
  exists book df js,
    files st !! file_path = Some book /\ book !! sheet_name = Some df /\
    df_empty df = false /\ to_json df = Return js /\
    json_loads js = Return (data r) /\ truthy (data r) = true /\
    r = source_response (data r).
Proof.
  unfold parse_shop, parse_shop_at, bind. rewrite file_path_accepted. simpl.
  unfold read_excel. simpl.
  destruct (files st !! file_path) as [book|]; [|done].
  destruct (book !! sheet_name) as [df|] eqn:Hsheet; [|done].
  destruct (df_empty df) eqn:Hempty; [done|].
  unfold lift, raise, ret.
  destruct (to_json df) as [js|e] eqn:Hjs; [|done].
  destruct (json_loads js) as [v|e] eqn:Hv; [|done].
  destruct (truthy v) eqn:Htruthy; [|done].
  simpl. intros [= <-]. by exists book, df, js.
Qed.

(** ** The cache helpers *)

Lemma get_cached_data_ok st :
  command_ok 0 st = true ->
  _get_cached_data settings st
  = (Return (fst <$> redis_db st !! key), issued (CallRedisGet key) st).
Proof.
  intros Hok. unfold _get_cached_data, try_except, bind, redis_get.
  rewrite redis_command_ok by done. simpl. by rewrite issued_db.
Qed.

Lemma get_cached_data_raises st e :
  command_raises 0 e st ->
  _get_cached_data settings st = (Return None, issued (CallRedisGet key) st).
Proof.
  intros Hr. unfold _get_cached_data, try_except, bind, redis_get.
  by rewrite (redis_command_raises _ _ e).
Qed.

Lemma parse_cached_data_returns st s v :
  json_loads s = Return v ->
  _parse_cached_data settings (Some s) st = (Return v, st).
Proof.
  intros Hv. unfold _parse_cached_data, try_except, bind, lift. simpl.
  by rewrite Hv.
Qed.

(** On a [JSONDecodeError] the key is deleted when the store lets it, and
    [None] is returned either way. *)
Lemma parse_cached_data_corrupt st s msg :
  json_loads s = Raise (JSONDecodeError msg) ->
  _parse_cached_data settings (Some s) st
  = (Return PNone,
     if command_ok 0 st
     then set_db (delete key (redis_db st)) (issued (CallRedisDelete key) st)
     else issued (CallRedisDelete key) st).
Proof.
  intros Hv. unfold _parse_cached_data, try_except, bind, lift. simpl.
  rewrite Hv. simpl. unfold redis_delete.
  destruct (command_ok_or_raises 0 st) as [Hok|[e Hr]].
  - rewrite redis_command_ok by done. rewrite Hok. simpl.
    by rewrite issued_db.
  - rewrite (redis_command_raises _ _ e) by done. simpl.
    unfold command_ok. unfold command_raises in Hr. by rewrite Hr.
Qed.

(** Any other exception of [json.loads] is not caught. *)
Lemma parse_cached_data_propagates st s e :
  json_loads s = Raise e ->
  except_JSONDecodeError e = false ->
  _parse_cached_data settings (Some s) st = (Raise e, st).
Proof.
  intros Hv He. unfold _parse_cached_data, try_except, bind, lift. simpl.
  rewrite Hv. simpl. by rewrite He.
Qed.

Lemma cache_response_run r st :
  _cache_response settings r st = (Return tt, after_cache_response settings r st).
Proof.
  unfold _cache_response, after_cache_response, try_except, bind, lift.
  destruct (json_dumps (data r)) as [s|e]; [|done].
  unfold redis_set.
  destruct (command_ok_or_raises 0 st) as [Hok|[e Hr]].
  - rewrite redis_command_ok by done. rewrite Hok. simpl.
    rewrite issued_db.
    destruct (Z.leb_spec ttl 0) as [Hle|Hlt].
    + by replace (0 <? ttl) with false by (symmetry; apply Z.ltb_ge; lia).
    + by replace (0 <? ttl) with true by (symmetry; apply Z.ltb_lt; lia).
  - rewrite (redis_command_raises _ _ e) by done. simpl.
    unfold command_ok. unfold command_raises in Hr. by rewrite Hr.
Qed.

Lemma fetch_from_source_run st :
  fetch_from_source settings st
  = (fst (parse_shop st),
     match fst (parse_shop st) with
     | Return r => after_cache_response settings r (snd (parse_shop st))
     | Raise _ => snd (parse_shop st)
     end).
Proof.
  unfold fetch_from_source, bind.
  destruct (parse_shop st) as [[r|e] st1]; [|done].
  by rewrite cache_response_run.
Qed.

Lemma get_cached_data_run st :
  _get_cached_data settings st
  = (Return (cached_value settings st), issued (CallRedisGet key) st).
Proof.
  unfold cached_value.
  destruct (command_ok_or_raises 0 st) as [Hok|[e Hr]].
  - rewrite get_cached_data_ok by done. by rewrite Hok.
  - rewrite (get_cached_data_raises _ e) by done.
    unfold command_ok. unfold command_raises in Hr. by rewrite Hr.
Qed.

Lemma cached_value_hit st raw ex :
  command_ok 0 st = true ->
  redis_db st !! key = Some (raw, ex) ->
  cached_value settings st = Some raw.
Proof. intros Hok Hdb. unfold cached_value. by rewrite Hok, Hdb. Qed.

(** ** The three ways through [get_all_tasks] *)

Lemma get_all_tasks_miss st :
  bytes_truthy (cached_value settings st) = false ->
  get_all_tasks settings st
  = fetch_from_source settings (issued (CallRedisGet key) st).
Proof.
  intros Hmiss. unfold get_all_tasks, bind.
  rewrite get_cached_data_run. by rewrite Hmiss.
Qed.

Lemma get_all_tasks_hit st raw v :
  cached_value settings st = Some raw ->
  str_truthy raw = true ->
  json_loads raw = Return v ->
  truthy v = true ->
  get_all_tasks settings st
  = (Return (cached_response v), issued (CallRedisGet key) st).
Proof.
  intros Hraw Hne Hv Ht. unfold get_all_tasks, bind.
  rewrite get_cached_data_run, Hraw. simpl. rewrite Hne.
  rewrite (parse_cached_data_returns _ _ v) by done.
  by rewrite Ht.
Qed.

Lemma get_all_tasks_falsy st raw v :
  cached_value settings st = Some raw ->
  str_truthy raw = true ->
  json_loads raw = Return v ->
  truthy v = false ->
  get_all_tasks settings st
  = fetch_from_source settings (issued (CallRedisGet key) st).
Proof.
  intros Hraw Hne Hv Ht. unfold get_all_tasks, bind.
  rewrite get_cached_data_run, Hraw. simpl. rewrite Hne.
  rewrite (parse_cached_data_returns _ _ v) by done.
  by rewrite Ht.
Qed.

Lemma get_all_tasks_corrupt st raw msg :
  cached_value settings st = Some raw ->
  str_truthy raw = true ->
  json_loads raw = Raise (JSONDecodeError msg) ->
  get_all_tasks settings st
  = fetch_from_source settings
      (let st1 := issued (CallRedisGet key) st in
       if command_ok 0 st1
       then set_db (delete key (redis_db st1)) (issued (CallRedisDelete key) st1)
       else issued (CallRedisDelete key) st1).
Proof.
  intros Hraw Hne Hv. unfold get_all_tasks, bind.
  rewrite get_cached_data_run, Hraw. simpl. rewrite Hne.
  by rewrite (parse_cached_data_corrupt _ _ msg).
Qed.

Lemma get_all_tasks_loads_error st raw e :
  cached_value settings st = Some raw ->
  str_truthy raw = true ->
  json_loads raw = Raise e ->
  except_JSONDecodeError e = false ->
  get_all_tasks settings st = (Raise e, issued (CallRedisGet key) st).
Proof.
  intros Hraw Hne Hv He. unfold get_all_tasks, bind.
  rewrite get_cached_data_run, Hraw. simpl. rewrite Hne.
  by rewrite (parse_cached_data_propagates _ _ e).
Qed.

(** ** The call log *)

Lemma parse_shop_count_app st cs :
  parse_shop_count
    {| redis_db := redis_db st; redis_faults := redis_faults st;
       files := files st; calls := calls st ++ cs |}
  = (parse_shop_count st
     + length (filter (fun c => is_parse_shop c = true) cs))%nat.
Proof. unfold parse_shop_count. simpl. by rewrite filter_app, length_app. Qed.

Lemma parse_shop_count_calls st st' cs :
  calls st' = (calls st ++ cs)%list ->
  parse_shop_count st'
  = (parse_shop_count st
     + length (filter (fun c => is_parse_shop c = true) cs))%nat.
Proof.
  intros Hc. unfold parse_shop_count. by rewrite Hc, filter_app, length_app.
Qed.

Lemma after_cache_response_calls r st :
  calls (after_cache_response settings r st)
  = (calls st ++ cache_response_calls settings r)%list.
Proof.
  unfold after_cache_response, cache_response_calls.
  destruct (json_dumps (data r)) as [s|e]; [|by rewrite app_nil_r].
  destruct (command_ok 0 st && (0 <? ttl)); simpl; by rewrite issued_calls.
Qed.

Lemma after_cache_response_files r st :
  files (after_cache_response settings r st) = files st.
Proof.
  unfold after_cache_response.
  destruct (json_dumps (data r)) as [s|e]; [|done].
  destruct (command_ok 0 st && (0 <? ttl)); simpl; by rewrite issued_files.
Qed.

Lemma after_cache_response_db r st :
  redis_db (after_cache_response settings r st)
  = match json_dumps (data r) with
    | Return s =>
        if command_ok 0 st && (0 <? ttl)
        then <[key := (s, ttl)]> (redis_db st)
        else redis_db st
    | Raise _ => redis_db st
    end.
Proof.
  unfold after_cache_response.
  destruct (json_dumps (data r)) as [s|e]; [|done].
  destruct (command_ok 0 st && (0 <? ttl)); simpl; [done|].
  by rewrite issued_db.
Qed.

Lemma fetch_from_source_result st :
  fst (fetch_from_source settings st) = fst (parse_shop st).
Proof. by rewrite fetch_from_source_run. Qed.

Lemma fetch_from_source_calls st :
  calls (snd (fetch_from_source settings st))
  = (calls st ++ fetch_calls settings st)%list.
Proof.
  rewrite fetch_from_source_run. unfold fetch_calls. simpl.
  rewrite parse_shop_state.
  destruct (fst (parse_shop st)) as [r|e]; simpl.
  - rewrite after_cache_response_calls. simpl.
    by rewrite <- !app_assoc.
  - by rewrite <- !app_assoc.
Qed.

Lemma fetch_from_source_files st :
  files (snd (fetch_from_source settings st)) = files st.
Proof.
  rewrite fetch_from_source_run. simpl. rewrite parse_shop_state.
  destruct (fst (parse_shop st)) as [r|e]; [|done].
  by rewrite after_cache_response_files.
Qed.

Lemma fetch_from_source_db st :
  redis_db (snd (fetch_from_source settings st))
  = match fst (parse_shop st) with
    | Return r =>
        match json_dumps (data r) with
        | Return s =>
            if command_ok 0 st && (0 <? ttl)
            then <[key := (s, ttl)]> (redis_db st)
            else redis_db st
        | Raise _ => redis_db st
        end
    | Raise _ => redis_db st
    end.
Proof.
  rewrite fetch_from_source_run. simpl. rewrite parse_shop_state.
  destruct (fst (parse_shop st)) as [r|e]; [|done].
  by rewrite after_cache_response_db.
Qed.

Lemma fetch_calls_files_only st st' :
  files st = files st' -> fetch_calls settings st = fetch_calls settings st'.
Proof.
  intros Hf. unfold fetch_calls. by rewrite (parse_shop_files_only st st').
Qed.

Lemma fetch_calls_count st :
  length (filter (fun c => is_parse_shop c = true) (fetch_calls settings st))
  = 1%nat.
Proof.
  unfold fetch_calls, cache_response_calls.
  destruct (fst (parse_shop st)) as [r|e]; [|done].
  by destruct (json_dumps (data r)).
Qed.

Lemma fetch_calls_no_delete st :
  Forall (fun c => is_redis_delete c = false) (fetch_calls settings st).
Proof.
  unfold fetch_calls, cache_response_calls.
  destruct (fst (parse_shop st)) as [r|e];
    [destruct (json_dumps (data r))|]; repeat constructor.
Qed.

Lemma after_cache_response_faults r st s :
  json_dumps (data r) = Return s ->
  redis_faults (after_cache_response settings r st) = tail (redis_faults st).
Proof.
  intros Hs. unfold after_cache_response. rewrite Hs.
  destruct (command_ok 0 st && (0 <? ttl)); simpl; by rewrite issued_faults.
Qed.

(** Every call either answers from the cache, or lets an exception of
    [json.loads] through, or runs lines 82-89 from a state that differs
    from the initial one by the get, and possibly the delete, issued so
    far. *)
Lemma get_all_tasks_cases st :
  (exists v, get_all_tasks settings st
             = (Return (cached_response v), issued (CallRedisGet key) st))
  \/ (exists e, get_all_tasks settings st
                = (Raise e, issued (CallRedisGet key) st))
  \/ (exists st1 cs,
        get_all_tasks settings st = fetch_from_source settings st1
        /\ files st1 = files st
        /\ calls st1 = (calls st ++ cs)%list
        /\ Forall (fun c => is_parse_shop c = false /\ is_redis_set c = false) cs
        /\ (redis_db st1 = redis_db st
            \/ redis_db st1 = delete key (redis_db st))).
Proof.
  set (st1 := issued (CallRedisGet key) st).
  assert (Hmiss : exists st1 cs,
             fetch_from_source settings (issued (CallRedisGet key) st)
             = fetch_from_source settings st1
             /\ files st1 = files st
             /\ calls st1 = (calls st ++ cs)%list
             /\ Forall (fun c => is_parse_shop c = false /\ is_redis_set c = false) cs
             /\ (redis_db st1 = redis_db st
                 \/ redis_db st1 = delete key (redis_db st))).
  { exists st1, [CallRedisGet key]. unfold st1.
    rewrite issued_files, issued_calls, issued_db.
    split_and!; try done; [by repeat constructor | by left]. }
  destruct (cached_value settings st) as [raw|] eqn:Hraw;
    [|right; right; by rewrite get_all_tasks_miss by (by rewrite Hraw)].
  destruct (str_truthy raw) eqn:Hne;
    [|right; right; by rewrite get_all_tasks_miss by (by rewrite Hraw)].
  destruct (json_loads raw) as [v|e] eqn:Hv.
  - destruct (truthy v) eqn:Ht.
    + left. exists v. by apply (get_all_tasks_hit st raw v).
    + right; right. by rewrite (get_all_tasks_falsy st raw v).
  - destruct e as [code detail|msg|cls msg].
    + right; left. eexists. by apply (get_all_tasks_loads_error st raw).
    + right; right. rewrite (get_all_tasks_corrupt st raw msg) by done.
      fold st1. eexists _, [CallRedisGet key; CallRedisDelete key].
      split; [done|]. cbv zeta.
      destruct (command_ok 0 st1); simpl; unfold st1;
        rewrite !issued_files, !issued_calls, ?issued_db, <- app_assoc;
        (split_and!; try done; [by repeat constructor | by (left + right)]).
    + right; left. eexists. by apply (get_all_tasks_loads_error st raw).
Qed.

(** ** The read-through protocol *)

(** C1 (amended): when the cache get returns a non-empty value that
    [json.loads] decodes to a truthy value, [get_all_tasks] returns the
    envelope with status 200, the detail string of the cache path and the
    decoded value as payload; the only call it makes is the Redis get, so
    the Source Reader is not invoked and the store is left as it was. *)
Theorem cache_hit_serves_cached_value st raw ex v :
  command_ok 0 st = true ->
  redis_db st !! key = Some (raw, ex) ->
  str_truthy raw = true ->
  json_loads raw = Return v ->
  truthy v = true ->
  fst (get_all_tasks settings st)
  = Return {| status := 200; details := "Данные получены из кеша."; data := v |}
  /\ calls (snd (get_all_tasks settings st)) = (calls st ++ [CallRedisGet key])%list
  /\ parse_shop_count (snd (get_all_tasks settings st)) = parse_shop_count st
  /\ redis_db (snd (get_all_tasks settings st)) = redis_db st.
Proof.
  intros Hok Hdb Hne Hv Ht.
  rewrite (get_all_tasks_hit st raw v); eauto using cached_value_hit.
  simpl. rewrite issued_calls, issued_db. split_and!; try done.
  rewrite (parse_shop_count_calls st _ [CallRedisGet key]).
  - simpl. lia.
  - by rewrite issued_calls.
Qed.

(** C2: when the Redis get raises, whatever the exception, the call is
    handled as a miss: [get_all_tasks] invokes the Source Reader once and
    its outcome, the envelope or the source-level error, is the Source
    Reader's outcome on the files; the store's exception goes nowhere. *)
Theorem cache_get_error_is_a_miss st e :
  command_raises 0 e st ->
  fst (get_all_tasks settings st) = fst (parse_shop st)
  /\ calls (snd (get_all_tasks settings st))
     = (calls st ++ CallRedisGet key :: fetch_calls settings st)%list
  /\ parse_shop_count (snd (get_all_tasks settings st))
     = S (parse_shop_count st).
Proof.
  intros Hr.
  assert (Hmiss : bytes_truthy (cached_value settings st) = false).
  { unfold cached_value, command_ok. unfold command_raises in Hr.
    by rewrite Hr. }
  rewrite get_all_tasks_miss by done.
  rewrite fetch_from_source_result, fetch_from_source_calls, issued_calls.
  set (st1 := issued (CallRedisGet key) st).
  assert (Hfiles : files st1 = files st) by apply issued_files.
  rewrite (parse_shop_files_only st1 st) by done.
  rewrite (fetch_calls_files_only st1 st) by done.
  assert (Hcalls : calls (snd (fetch_from_source settings st1))
                   = (calls st ++ CallRedisGet key :: fetch_calls settings st)%list).
  { rewrite fetch_from_source_calls. unfold st1. rewrite issued_calls.
    rewrite (fetch_calls_files_only (issued (CallRedisGet key) st) st) by done.
    by rewrite <- app_assoc. }
  split_and!; try done.
  - by rewrite <- app_assoc.
  - rewrite (parse_shop_count_calls st _ _ Hcalls).
    rewrite filter_cons_False by done.
    rewrite fetch_calls_count. lia.
Qed.

(** The recovery from a corrupted entry, for the failure the handler of
    line 37 names: when the cached value is non-empty and [json.loads] raises
    [JSONDecodeError] on it, [get_all_tasks] (a) issues a delete of the key
    right after the get, and the call goes on whether the delete succeeds
    or raises, (b) then invokes the Source Reader, (c) returns the Source
    Reader's outcome, and (d) when the read succeeds and the write-back
    goes through, leaves the serialized payload at the key with the
    configured expiry. *)
Theorem corrupt_cache_entry_recovers st raw ex msg :
  command_ok 0 st = true ->
  redis_db st !! key = Some (raw, ex) ->
  str_truthy raw = true ->
  json_loads raw = Raise (JSONDecodeError msg) ->
  calls (snd (get_all_tasks settings st))
  = (calls st ++ CallRedisGet key :: CallRedisDelete key
       :: fetch_calls settings st)%list
  /\ fst (get_all_tasks settings st) = fst (parse_shop st)
  /\ (forall r s,
        fst (parse_shop st) = Return r ->
        json_dumps (data r) = Return s ->
        command_ok 2 st = true ->
        0 < ttl ->
        redis_db (snd (get_all_tasks settings st)) !! key = Some (s, ttl)).
Proof.
  intros Hok Hdb Hne Hv.
  rewrite (get_all_tasks_corrupt st raw msg); eauto using cached_value_hit.
  set (st1 := issued (CallRedisGet key) st).
  set (st2 := if command_ok 0 st1
              then set_db (delete key (redis_db st1))
                     (issued (CallRedisDelete key) st1)
              else issued (CallRedisDelete key) st1).
  assert (Hfiles : files st2 = files st).
  { unfold st2. destruct (command_ok 0 st1); simpl;
      by rewrite issued_files; apply issued_files. }
  assert (Hcalls : calls st2
                   = (calls st ++ [CallRedisGet key; CallRedisDelete key])%list).
  { unfold st2. destruct (command_ok 0 st1); simpl;
      rewrite issued_calls; unfold st1; rewrite issued_calls;
      by rewrite <- app_assoc. }
  assert (Hnext : command_ok 0 st2 = command_ok 2 st).
  { unfold st2. destruct (command_ok 0 st1); unfold command_ok; simpl;
      rewrite issued_faults; unfold st1; rewrite issued_faults;
      by destruct (redis_faults st) as [|? [|? ?]]. }
  rewrite fetch_from_source_result, fetch_from_source_calls, fetch_from_source_db.
  rewrite (parse_shop_files_only st2 st) by done.
  rewrite (fetch_calls_files_only st2 st) by done.
  rewrite Hcalls, Hnext. split_and!; try done.
  - by rewrite <- app_assoc.
  - intros r s Hr Hs Hset Httl. rewrite Hr, Hs, Hset.
    replace (0 <? ttl) with true by (symmetry; by apply Z.ltb_lt).
    simpl. apply lookup_insert_eq.
Qed.

(** C4: the outcome of lines 82-89 is the Source Reader's outcome for
    every state, hence for every failure schedule of the store, every
    behaviour of [json.dumps] and every expiry setting; [_cache_response]
    returns normally whatever happens inside it; and whenever a call of
    [get_all_tasks] has entered the Source Reader, its outcome is the
    Source Reader's. *)
Theorem write_back_never_alters_the_response st :
  fst (fetch_from_source settings st) = fst (parse_shop st)
  /\ (forall r st', fst (_cache_response settings r st') = Return tt)
  /\ (parse_shop_count (snd (get_all_tasks settings st)) <> parse_shop_count st ->
      fst (get_all_tasks settings st) = fst (parse_shop st)).
Proof.
  split_and!.
  - apply fetch_from_source_result.
  - intros r st'. by rewrite cache_response_run.
  - destruct (get_all_tasks_cases st)
      as [[v ->]|[[e ->]|(st1 & cs & -> & Hfiles & _)]]; simpl.
    + intros []. rewrite (parse_shop_count_calls st _ [CallRedisGet key]).
      * simpl. lia.
      * by rewrite issued_calls.
    + intros []. rewrite (parse_shop_count_calls st _ [CallRedisGet key]).
      * simpl. lia.
      * by rewrite issued_calls.
    + intros _. rewrite fetch_from_source_result.
      by apply parse_shop_files_only.
Qed.

(** C9: when the cached value is non-empty and decodes to a falsy value,
    [get_all_tasks] does not return it and issues no delete; it invokes
    the Source Reader, returns its outcome, and when the read succeeds and
    the write-back goes through the entry is overwritten with the
    serialized payload. *)
Theorem falsy_cache_entry_is_refetched st raw ex v :
  command_ok 0 st = true ->
  redis_db st !! key = Some (raw, ex) ->
  str_truthy raw = true ->
  json_loads raw = Return v ->
  truthy v = false ->
  calls (snd (get_all_tasks settings st))
  = (calls st ++ CallRedisGet key :: fetch_calls settings st)%list
  /\ Forall (fun c => is_redis_delete c = false)
       (CallRedisGet key :: fetch_calls settings st)
  /\ fst (get_all_tasks settings st) = fst (parse_shop st)
  /\ (forall r s,
        fst (parse_shop st) = Return r ->
        json_dumps (data r) = Return s ->
        command_ok 1 st = true ->
        0 < ttl ->
        redis_db (snd (get_all_tasks settings st)) !! key = Some (s, ttl)).
Proof.
  intros Hok Hdb Hne Hv Ht.
  rewrite (get_all_tasks_falsy st raw v); eauto using cached_value_hit.
  set (st1 := issued (CallRedisGet key) st).
  assert (Hfiles : files st1 = files st) by apply issued_files.
  rewrite fetch_from_source_result, fetch_from_source_calls, fetch_from_source_db.
  rewrite (parse_shop_files_only st1 st) by done.
  rewrite (fetch_calls_files_only st1 st) by done.
  unfold st1. rewrite issued_calls, issued_db, command_ok_issued.
  split_and!; try done.
  - by rewrite <- app_assoc.
  - constructor; [done|apply fetch_calls_no_delete].
  - intros r s Hr Hs Hset Httl. rewrite Hr, Hs, Hset.
    replace (0 <? ttl) with true by (symmetry; by apply Z.ltb_lt).
    simpl. apply lookup_insert_eq.
Qed.

(** C5: from an empty cache, a store that runs its next three commands
    and a source the Source Reader succeeds on, with a payload that
    [json.dumps] serializes to a non-empty text which [json.loads] decodes
    back to it: the first call returns the Source Reader's envelope, the
    second returns the cache envelope with the same payload, and the
    Source Reader is entered once, during the first call. *)
Theorem cold_then_warm_same_payload st r s :
  redis_db st !! key = None ->
  command_ok 0 st = true ->
  command_ok 1 st = true ->
  command_ok 2 st = true ->
  0 < ttl ->
  fst (parse_shop st) = Return r ->
  json_dumps (data r) = Return s ->
  str_truthy s = true ->
  json_loads s = Return (data r) ->
  exists st1 st2,
    get_all_tasks settings st = (Return r, st1)
    /\ get_all_tasks settings st1 = (Return (cached_response (data r)), st2)
    /\ data (cached_response (data r)) = data r
    /\ parse_shop_count st1 = S (parse_shop_count st)
    /\ parse_shop_count st2 = parse_shop_count st1.
Proof.
  intros Hdb Hok0 Hok1 Hok2 Httl Hr Hs Hne Hback.
  set (st0 := issued (CallRedisGet key) st).
  assert (Hfiles : files st0 = files st) by apply issued_files.
  assert (Hr0 : fst (parse_shop st0) = Return r)
    by (by rewrite (parse_shop_files_only st0 st)).
  assert (Hcold : get_all_tasks settings st = fetch_from_source settings st0).
  { apply get_all_tasks_miss. unfold cached_value. by rewrite Hok0, Hdb. }
  set (st1 := snd (fetch_from_source settings st0)).
  assert (Hrun1 : get_all_tasks settings st = (Return r, st1)).
  { rewrite Hcold. unfold st1.
    rewrite <- Hr0, <- fetch_from_source_result.
    by destruct (fetch_from_source settings st0). }
  assert (Hcalls1 : calls st1
                    = (calls st ++ CallRedisGet key :: fetch_calls settings st)%list).
  { unfold st1. rewrite fetch_from_source_calls. unfold st0.
    rewrite issued_calls, <- app_assoc.
    by rewrite (fetch_calls_files_only (issued (CallRedisGet key) st) st). }
  assert (Hdb1 : redis_db st1 !! key = Some (s, ttl)).
  { unfold st1. rewrite fetch_from_source_db, Hr0, Hs.
    unfold st0. rewrite command_ok_issued, Hok1.
    replace (0 <? ttl) with true by (symmetry; by apply Z.ltb_lt).
    simpl. apply lookup_insert_eq. }
  assert (Hok : command_ok 0 st1 = true).
  { unfold st1. rewrite fetch_from_source_run, Hr0. simpl.
    unfold command_ok. rewrite (after_cache_response_faults _ _ s) by done.
    rewrite parse_shop_state. simpl. unfold st0. rewrite issued_faults.
    unfold command_ok in Hok2. by destruct (redis_faults st) as [|? [|? ?]]. }
  exists st1, (issued (CallRedisGet key) st1).
  split_and!; try done.
  - apply (get_all_tasks_hit st1 s); try done.
    + by apply (cached_value_hit st1 s ttl).
    + by destruct (parse_shop_returns st r Hr)
        as (book & df & js & _ & _ & _ & _ & _ & Ht & _).
  - rewrite (parse_shop_count_calls st _ _ Hcalls1).
    rewrite filter_cons_False by done. rewrite fetch_calls_count. lia.
  - rewrite (parse_shop_count_calls st1 _ [CallRedisGet key]).
    + simpl. lia.
    + by rewrite issued_calls.
Qed.

(** ** The Source Reader's checks *)

(** The test of line 22 accepts exactly the paths that end in ".xlsx". *)
Lemma extension_check_is_xlsx path :
  endswith path (str_or ".xlsx" ".xls") = endswith path ".xlsx".
Proof. reflexivity. Qed.


(** C7 (amended): when the sheet "Персонажи" of the workbook holds no
    rows or no columns, the Source Reader raises the 404 exception; a call
    of [get_all_tasks] that enters the Source Reader, in particular every
    call on a cache miss, raises it too; the call issues no Redis set, and
    the store afterwards is the store before, or the store before without
    the cache key. *)
Theorem empty_sheet_is_not_found st book df :
  files st !! file_path = Some book ->
  book !! sheet_name = Some df ->
  df_empty df = true ->
  fst (parse_shop st) = Raise (HTTPException 404 "Такой таблицы не существует")
  /\ (parse_shop_count (snd (get_all_tasks settings st)) <> parse_shop_count st ->
      fst (get_all_tasks settings st)
      = Raise (HTTPException 404 "Такой таблицы не существует"))
  /\ (bytes_truthy (cached_value settings st) = false ->
      fst (get_all_tasks settings st)
      = Raise (HTTPException 404 "Такой таблицы не существует"))
  /\ (exists cs,
        calls (snd (get_all_tasks settings st)) = (calls st ++ cs)%list
        /\ Forall (fun c => is_redis_set c = false) cs)
  /\ (redis_db (snd (get_all_tasks settings st)) = redis_db st
      \/ redis_db (snd (get_all_tasks settings st)) = delete key (redis_db st)).
Proof.
  intros Hbook Hsheet Hempty.
  assert (Hfail : forall st', files st' = files st ->
            fst (parse_shop st')
            = Raise (HTTPException 404 "Такой таблицы не существует")).
  { intros st' Hf. unfold parse_shop, parse_shop_at, bind.
    rewrite file_path_accepted. simpl. unfold read_excel. simpl.
    by rewrite Hf, Hbook, Hsheet, Hempty. }
  split; [by apply Hfail|].
  destruct (get_all_tasks_cases st)
    as [[v Hrun]|[[e Hrun]|(st1 & cs & Hrun & Hfiles & Hcalls & Hcs & Hdb)]].
  - rewrite Hrun. simpl. rewrite issued_calls, issued_db. split_and!.
    + intros []. rewrite (parse_shop_count_calls st _ [CallRedisGet key]).
      * simpl. lia.
      * by rewrite issued_calls.
    + intros Hmiss. rewrite get_all_tasks_miss in Hrun by done.
      apply (f_equal fst) in Hrun. rewrite fetch_from_source_result in Hrun.
      rewrite Hfail in Hrun by apply issued_files. done.
    + exists [CallRedisGet key]. split; [done|by repeat constructor].
    + by left.
  - rewrite Hrun. simpl. rewrite issued_calls, issued_db. split_and!.
    + intros []. rewrite (parse_shop_count_calls st _ [CallRedisGet key]).
      * simpl. lia.
      * by rewrite issued_calls.
    + intros Hmiss. rewrite get_all_tasks_miss in Hrun by done.
      apply (f_equal fst) in Hrun. rewrite fetch_from_source_result in Hrun.
      rewrite Hfail in Hrun by apply issued_files.
      simpl in Hrun. by rewrite <- Hrun.
    + exists [CallRedisGet key]. split; [done|by repeat constructor].
    + by left.
  - rewrite Hrun.
    rewrite fetch_from_source_result, fetch_from_source_calls, fetch_from_source_db.
    unfold fetch_calls. rewrite (Hfail st1 Hfiles), Hcalls.
    split_and!; try done.
    exists (cs ++ [CallParseShop; CallReadExcel file_path sheet_name])%list.
    split; [by rewrite <- app_assoc|].
    apply Forall_app. split; [|by repeat constructor].
    eapply Forall_impl; [exact Hcs|]. by intros c [_ ?].
Qed.


(** C10: when the sheet passes the non-empty check and the normalization
    yields a list with one element per row, that list is non-empty and
    truthy, so [parse_shop] returns the envelope and the 400 exception of
    line 40 is not raised. *)
Theorem formatting_error_is_unreachable st book df js v items :
  files st !! file_path = Some book ->
  book !! sheet_name = Some df ->
  df_empty df = false ->
  to_json df = Return js ->
  json_loads js = Return v ->
  v = PList items ->
  length items = length (rows df) ->
  items <> []
  /\ truthy v = true
  /\ fst (parse_shop st) = Return (source_response v)
  /\ (forall detail,
        fst (parse_shop st) <> Raise (HTTPException 400 detail)).
Proof.
  intros Hbook Hsheet Hempty Hjs Hv -> Hlen.
  assert (Hitems : items <> []).
  { destruct df as [cols [|row rs]]; simpl in *.
    - by destruct cols.
    - by destruct items. }
  assert (Hrun : fst (parse_shop st) = Return (source_response (PList items))).
  { unfold parse_shop, parse_shop_at, bind.
    rewrite file_path_accepted. simpl. unfold read_excel. simpl.
    rewrite Hbook, Hsheet, Hempty. unfold lift. rewrite Hjs, Hv.
    by destruct items. }
  split_and!; try done.
  - by destruct items.
  - intros detail. by rewrite Hrun.
Qed.

End Properties.

(** * Further properties of the services *)

Section Further.
Context `{lib : PyLib}.
Variable settings : Settings.

Local Abbreviation key := (CACHE_KEY (redis settings)).
Local Abbreviation ttl := (CACHE_EXPIRE (redis settings)).

(** ** The four paths of a call, with what selects each *)

Lemma fetch_from_source_faults st :
  redis_faults (snd (fetch_from_source settings st))
  = match fst (parse_shop st) with
    | Return r =>
        match json_dumps (data r) with
        | Return _ => tail (redis_faults st)
        | Raise _ => redis_faults st
        end
    | Raise _ => redis_faults st
    end.
Proof.
  rewrite fetch_from_source_run. simpl. rewrite parse_shop_state.
  destruct (fst (parse_shop st)) as [r|e]; [|done].
  destruct (json_dumps (data r)) as [s|e] eqn:Hs.
  - by rewrite (after_cache_response_faults settings r _ s).
  - unfold after_cache_response. by rewrite Hs.
Qed.

Lemma after_corrupt_entry_files st :
  files (after_corrupt_entry settings st) = files st.
Proof.
  unfold after_corrupt_entry. cbv zeta.
  destruct (command_ok 0 _); simpl; by rewrite !issued_files.
Qed.

Lemma after_corrupt_entry_calls st :
  calls (after_corrupt_entry settings st)
  = (calls st ++ [CallRedisGet key; CallRedisDelete key])%list.
Proof.
  unfold after_corrupt_entry. cbv zeta.
  destruct (command_ok 0 _); simpl; by rewrite !issued_calls, <- app_assoc.
Qed.

Lemma after_corrupt_entry_faults st :
  redis_faults (after_corrupt_entry settings st) = drop 2 (redis_faults st).
Proof.
  unfold after_corrupt_entry. cbv zeta.
  destruct (command_ok 0 _); simpl; rewrite !issued_faults;
    by destruct (redis_faults st) as [|? [|? ?]].
Qed.

Lemma after_corrupt_entry_db st :
  redis_db (after_corrupt_entry settings st)
  = if command_ok 1 st then delete key (redis_db st) else redis_db st.
Proof.
  unfold after_corrupt_entry. cbv zeta. rewrite command_ok_issued.
  destruct (command_ok 1 st); simpl; by rewrite !issued_db.
Qed.

(** The paths of the lemmas above, each with the condition on the cached
    value that selects it. *)
Lemma get_all_tasks_paths st :
  (exists raw v,
     cached_value settings st = Some raw /\ str_truthy raw = true
     /\ json_loads raw = Return v /\ truthy v = true
     /\ get_all_tasks settings st
        = (Return (cached_response v), issued (CallRedisGet key) st))
  \/ (exists raw e,
        cached_value settings st = Some raw /\ str_truthy raw = true
        /\ json_loads raw = Raise e /\ except_JSONDecodeError e = false
        /\ get_all_tasks settings st = (Raise e, issued (CallRedisGet key) st))
  \/ ((bytes_truthy (cached_value settings st) = false
       \/ exists raw v,
            cached_value settings st = Some raw /\ str_truthy raw = true
            /\ json_loads raw = Return v /\ truthy v = false)
      /\ get_all_tasks settings st
         = fetch_from_source settings (issued (CallRedisGet key) st))
  \/ (exists raw msg,
        cached_value settings st = Some raw /\ str_truthy raw = true
        /\ json_loads raw = Raise (JSONDecodeError msg)
        /\ get_all_tasks settings st
           = fetch_from_source settings (after_corrupt_entry settings st)).
Proof.
  destruct (cached_value settings st) as [raw|] eqn:Hraw;
    [|right; right; left; split; [by left|];
      by rewrite get_all_tasks_miss by (by rewrite Hraw)].
  destruct (str_truthy raw) eqn:Hne;
    [|right; right; left; split; [by left|];
      by rewrite get_all_tasks_miss by (by rewrite Hraw)].
  destruct (json_loads raw) as [v|e] eqn:Hv.
  - destruct (truthy v) eqn:Ht.
    + left. exists raw, v. split_and!; try done.
      by apply (get_all_tasks_hit settings st raw v).
    + right; right; left. split; [right; by exists raw, v|].
      by apply (get_all_tasks_falsy settings st raw v).
  - destruct (except_JSONDecodeError e) eqn:He.
    + destruct e as [| msg |]; try done.
      right; right; right. exists raw, msg. split_and!; try done.
      by rewrite (get_all_tasks_corrupt settings st raw msg).
    + right; left. exists raw, e. split_and!; try done.
      by apply (get_all_tasks_loads_error settings st raw e).
Qed.

Lemma tail_drop {A : Type} n (l : list A) : tail (drop n l) = drop (S n) l.
Proof.
  revert l. induction n as [|n IH]; intros [|x l]; simpl; done.
Qed.

Lemma command_ok_drop st st' k i :
  redis_faults st' = drop k (redis_faults st) ->
  command_ok i st' = command_ok (k + i) st.
Proof. intros H. unfold command_ok. by rewrite H, lookup_drop. Qed.

Lemma fetch_from_source_other_keys st k :
  k <> key ->
  redis_db (snd (fetch_from_source settings st)) !! k = redis_db st !! k.
Proof.
  intros Hk. rewrite fetch_from_source_db.
  destruct (fst (parse_shop st)) as [r|e]; [|done].
  destruct (json_dumps (data r)) as [s|e]; [|done].
  destruct (command_ok 0 st && (0 <? ttl)); [|done].
  by rewrite lookup_insert_ne.
Qed.

(** ** The cache helpers *)

(** X1: [_get_cached_data] returns normally from every state: the bytes
    stored under the cache key when the get runs and the key is present,
    [None] when the key is absent or the get raises; it issues one get
    and leaves the store as it was. *)
Theorem get_cached_data_never_raises st :
  fst (_get_cached_data settings st)
  = Return (if command_ok 0 st then fst <$> redis_db st !! key else None)
  /\ redis_db (snd (_get_cached_data settings st)) = redis_db st
  /\ files (snd (_get_cached_data settings st)) = files st
  /\ calls (snd (_get_cached_data settings st))
     = (calls st ++ [CallRedisGet key])%list.
Proof.
  rewrite get_cached_data_run. simpl.
  by rewrite issued_db, issued_files, issued_calls.
Qed.

(** X2: whatever [_cache_response] does, the keys other than the cache key
    and the files are as before, and the cache key holds either what it
    held or the text [json.dumps] gave for the payload, with the
    configured expiry; it holds the latter when [json.dumps] returns, the
    set is not refused by the store and the expiry is positive. *)
Theorem cache_response_writes_only_the_payload r st :
  (forall k, k <> key ->
     redis_db (snd (_cache_response settings r st)) !! k = redis_db st !! k)
  /\ files (snd (_cache_response settings r st)) = files st
  /\ (redis_db (snd (_cache_response settings r st)) !! key = redis_db st !! key
      \/ exists s,
           json_dumps (data r) = Return s
           /\ redis_db (snd (_cache_response settings r st)) !! key
              = Some (s, ttl))
  /\ (forall s,
        json_dumps (data r) = Return s ->
        command_ok 0 st = true ->
        0 < ttl ->
        redis_db (snd (_cache_response settings r st))
        = <[key := (s, ttl)]> (redis_db st)).
Proof.
  rewrite cache_response_run. simpl.
  rewrite after_cache_response_files, after_cache_response_db.
  split_and!; try done.
  - intros k Hk. destruct (json_dumps (data r)) as [s|e]; [|done].
    destruct (command_ok 0 st && (0 <? ttl)); [|done].
    by rewrite lookup_insert_ne.
  - destruct (json_dumps (data r)) as [s|e]; [|by left].
    destruct (command_ok 0 st && (0 <? ttl)); [|by left].
    right. exists s. by rewrite lookup_insert_eq.
  - intros s -> -> Httl.
    by replace (0 <? ttl) with true by (symmetry; by apply Z.ltb_lt).
Qed.

(** ** One call *)

(** X3: a call of [get_all_tasks] leaves every key of the store other
    than the cache key, and the files, as they were. *)
Theorem get_all_tasks_touches_only_its_key st :
  (forall k, k <> key ->
     redis_db (snd (get_all_tasks settings st)) !! k = redis_db st !! k)
  /\ files (snd (get_all_tasks settings st)) = files st.
Proof.
  destruct (get_all_tasks_paths st)
    as [(raw & v & _ & _ & _ & _ & ->)
       |[(raw & e & _ & _ & _ & _ & ->)
        |[(_ & ->)|(raw & msg & _ & _ & _ & ->)]]]; simpl.
  - by rewrite issued_db, issued_files.
  - by rewrite issued_db, issued_files.
  - rewrite fetch_from_source_files, issued_files. split; [|done].
    intros k Hk. rewrite fetch_from_source_other_keys by done.
    by rewrite issued_db.
  - rewrite fetch_from_source_files, after_corrupt_entry_files. split; [|done].
    intros k Hk. rewrite fetch_from_source_other_keys by done.
    rewrite after_corrupt_entry_db.
    destruct (command_ok 1 st); [|done]. by rewrite lookup_delete_ne.
Qed.

Lemma fetch_from_source_budget st :
  count_calls is_redis_get (fetch_calls settings st) = 0%nat
  /\ count_calls is_redis_delete (fetch_calls settings st) = 0%nat
  /\ (count_calls is_redis_set (fetch_calls settings st) <= 1)%nat
  /\ count_calls is_parse_shop (fetch_calls settings st) = 1%nat
  /\ redis_faults (snd (fetch_from_source settings st))
     = drop (count_calls is_redis_command (fetch_calls settings st))
         (redis_faults st).
Proof.
  rewrite fetch_from_source_faults. unfold fetch_calls, cache_response_calls.
  destruct (fst (parse_shop st)) as [r|e];
    [destruct (json_dumps (data r)) as [s|e]|];
    split_and!; try done; try (vm_compute; lia).
Qed.

(** X4: a call issues one Redis get, first, and after it at most one
    delete, at most one set and no further get; it enters the Source
    Reader at most once; and it uses up one slot of the store's failure
    schedule per command issued. *)
Theorem get_all_tasks_command_budget st :
  exists cs,
    calls (snd (get_all_tasks settings st))
    = (calls st ++ CallRedisGet key :: cs)%list
    /\ count_calls is_redis_get cs = 0%nat
    /\ (count_calls is_redis_delete cs <= 1)%nat
    /\ (count_calls is_redis_set cs <= 1)%nat
    /\ (count_calls is_parse_shop cs <= 1)%nat
    /\ redis_faults (snd (get_all_tasks settings st))
       = drop (S (count_calls is_redis_command cs)) (redis_faults st).
Proof.
  destruct (get_all_tasks_paths st)
    as [(raw & v & _ & _ & _ & _ & ->)
       |[(raw & e & _ & _ & _ & _ & ->)
        |[(_ & ->)|(raw & msg & _ & _ & _ & ->)]]].
  - exists []. simpl. rewrite issued_calls, issued_faults.
    split_and!; try done; vm_compute; lia.
  - exists []. simpl. rewrite issued_calls, issued_faults.
    split_and!; try done; vm_compute; lia.
  - set (st1 := issued (CallRedisGet key) st).
    destruct (fetch_from_source_budget st1) as (Hg & Hd & Hs & Hp & Hf).
    assert (Hc1 : calls st1 = (calls st ++ [CallRedisGet key])%list)
      by apply issued_calls.
    assert (Hf1 : redis_faults st1 = drop 1 (redis_faults st)).
    { unfold st1. rewrite issued_faults. by destruct (redis_faults st). }
    exists (fetch_calls settings st1).
    rewrite fetch_from_source_calls, Hf, Hc1, Hf1, <- app_assoc, drop_drop.
    split_and!; try done; lia.
  - set (st1 := after_corrupt_entry settings st).
    destruct (fetch_from_source_budget st1) as (Hg & Hd & Hs & Hp & Hf).
    assert (Hc1 : calls st1
                  = (calls st ++ [CallRedisGet key; CallRedisDelete key])%list)
      by apply after_corrupt_entry_calls.
    assert (Hf1 : redis_faults st1 = drop 2 (redis_faults st))
      by apply after_corrupt_entry_faults.
    exists (CallRedisDelete key :: fetch_calls settings st1).
    rewrite fetch_from_source_calls, Hf, Hc1, Hf1, <- app_assoc, drop_drop.
    unfold count_calls in *.
    rewrite (filter_cons_False (fun c => is_redis_get c = true)) by done.
    rewrite (filter_cons_True (fun c => is_redis_delete c = true)) by done.
    rewrite (filter_cons_False (fun c => is_redis_set c = true)) by done.
    rewrite (filter_cons_False (fun c => is_parse_shop c = true)) by done.
    rewrite (filter_cons_True (fun c => is_redis_command c = true)) by done.
    cbn [length]. split_and!; try done; lia.
Qed.

(** X5: the envelope a call returns has status 200 and a truthy payload,
    and it is the cache envelope or the source envelope of that payload:
    no call returns an empty payload. *)
Theorem returned_envelope_is_ok_and_non_empty st r :
  fst (get_all_tasks settings st) = Return r ->
  status r = 200
  /\ truthy (data r) = true
  /\ (r = cached_response (data r) \/ r = source_response (data r)).
Proof.
  destruct (get_all_tasks_paths st)
    as [(raw & v & _ & _ & _ & Ht & ->)
       |[(raw & e & _ & _ & _ & _ & ->)
        |[(_ & ->)|(raw & msg & _ & _ & _ & ->)]]]; simpl.
  - intros [= <-]. split_and!; [done|done|by left].
  - done.
  - rewrite fetch_from_source_result. intros Hr.
    destruct (parse_shop_returns _ r Hr)
      as (book & df & js & _ & _ & _ & _ & _ & Ht & Heq).
    split_and!; [by rewrite Heq|done|by right].
  - rewrite fetch_from_source_result. intros Hr.
    destruct (parse_shop_returns _ r Hr)
      as (book & df & js & _ & _ & _ & _ & _ & Ht & Heq).
    split_and!; [by rewrite Heq|done|by right].
Qed.

Lemma cached_value_Some st raw :
  cached_value settings st = Some raw ->
  command_ok 0 st = true /\ exists ex, redis_db st !! key = Some (raw, ex).
Proof.
  unfold cached_value. destruct (command_ok 0 st); [|done].
  destruct (redis_db st !! key) as [[raw' ex]|]; [|done].
  intros [= <-]. eauto.
Qed.

(** X6: after a call the cache key holds what it held before, or nothing
    because the value it held raised [JSONDecodeError], or the text
    [json.dumps] gave for the payload of the source envelope the call
    returned, with the configured expiry.  Nothing else is ever stored. *)
Theorem cache_entry_after_a_call st :
  redis_db (snd (get_all_tasks settings st)) !! key = redis_db st !! key
  \/ (redis_db (snd (get_all_tasks settings st)) !! key = None
      /\ exists raw ex msg,
           redis_db st !! key = Some (raw, ex)
           /\ json_loads raw = Raise (JSONDecodeError msg))
  \/ (exists r s,
        fst (get_all_tasks settings st) = Return r
        /\ r = source_response (data r)
        /\ json_dumps (data r) = Return s
        /\ redis_db (snd (get_all_tasks settings st)) !! key = Some (s, ttl)).
Proof.
  assert (Hfetch : forall st1,
            redis_db (snd (fetch_from_source settings st1)) !! key
            = redis_db st1 !! key
            \/ exists r s,
                 fst (fetch_from_source settings st1) = Return r
                 /\ r = source_response (data r)
                 /\ json_dumps (data r) = Return s
                 /\ redis_db (snd (fetch_from_source settings st1)) !! key
                    = Some (s, ttl)).
  { intros st1. rewrite fetch_from_source_db, fetch_from_source_result.
    destruct (fst (parse_shop st1)) as [r|e] eqn:Hr; [|by left].
    destruct (json_dumps (data r)) as [s|e] eqn:Hs; [|by left].
    destruct (command_ok 0 st1 && (0 <? ttl)); [|by left].
    right. exists r, s. rewrite lookup_insert_eq. split_and!; try done.
    by destruct (parse_shop_returns _ r Hr)
      as (book & df & js & _ & _ & _ & _ & _ & _ & Heq). }
  destruct (get_all_tasks_paths st)
    as [(raw & v & _ & _ & _ & _ & ->)
       |[(raw & e & _ & _ & _ & _ & ->)
        |[(_ & ->)|(raw & msg & Hraw & _ & Hv & ->)]]].
  - left. simpl. by rewrite issued_db.
  - left. simpl. by rewrite issued_db.
  - destruct (Hfetch (issued (CallRedisGet key) st)) as [Heq|Hset].
    + left. by rewrite Heq, issued_db.
    + by right; right.
  - destruct (Hfetch (after_corrupt_entry settings st)) as [Heq|Hset].
    + rewrite Heq, after_corrupt_entry_db.
      destruct (command_ok 1 st); [|by left].
      right; left. rewrite lookup_delete_eq. split; [done|].
      destruct (cached_value_Some st raw Hraw) as (_ & ex & Hdb).
      by exists raw, ex, msg.
    + by right; right.
Qed.

(** X7: when the Source Reader fails on the files, for whatever reason,
    every call that enters it, and so every call on a cache miss, raises
    the Source Reader's exception; the call issues no Redis set and the
    store afterwards is the store before, or the store before without
    the cache key. *)
Theorem source_failure_propagates_and_writes_nothing st e :
  fst (parse_shop st) = Raise e ->
  (parse_shop_count (snd (get_all_tasks settings st)) <> parse_shop_count st ->
   fst (get_all_tasks settings st) = Raise e)
  /\ (bytes_truthy (cached_value settings st) = false ->
      fst (get_all_tasks settings st) = Raise e)
  /\ (exists cs,
        calls (snd (get_all_tasks settings st)) = (calls st ++ cs)%list
        /\ Forall (fun c => is_redis_set c = false) cs)
  /\ (redis_db (snd (get_all_tasks settings st)) = redis_db st
      \/ redis_db (snd (get_all_tasks settings st)) = delete key (redis_db st)).
Proof.
  intros Hfail.
  assert (Hfail' : forall st', files st' = files st ->
            fst (parse_shop st') = Raise e).
  { intros st' Hf. by rewrite (parse_shop_files_only st' st). }
  assert (Hhit : parse_shop_count (issued (CallRedisGet key) st)
                 = parse_shop_count st).
  { rewrite (parse_shop_count_calls st _ [CallRedisGet key]).
    - simpl. lia.
    - by rewrite issued_calls. }
  destruct (get_all_tasks_paths st)
    as [(raw & v & Hraw & Hne & _ & _ & ->)
       |[(raw & e' & Hraw & Hne & _ & _ & ->)
        |[(_ & ->)|(raw & msg & Hraw & Hne & _ & ->)]]]; simpl.
  - rewrite issued_calls, issued_db. split_and!.
    + by rewrite Hhit.
    + rewrite Hraw. simpl. by rewrite Hne.
    + exists [CallRedisGet key]. split; [done|by repeat constructor].
    + by left.
  - rewrite issued_calls, issued_db. split_and!.
    + by rewrite Hhit.
    + rewrite Hraw. simpl. by rewrite Hne.
    + exists [CallRedisGet key]. split; [done|by repeat constructor].
    + by left.
  - rewrite fetch_from_source_result, fetch_from_source_calls,
      fetch_from_source_db.
    unfold fetch_calls. rewrite (Hfail' _ (issued_files _ _)).
    rewrite issued_calls, issued_db, <- app_assoc.
    split_and!; [done|done| |by left].
    eexists. split; [done|by repeat constructor].
  - rewrite fetch_from_source_result, fetch_from_source_calls,
      fetch_from_source_db.
    unfold fetch_calls.
    rewrite (Hfail' _ (after_corrupt_entry_files st)).
    rewrite after_corrupt_entry_calls, after_corrupt_entry_db, <- app_assoc.
    split_and!; [done|done| |].
    + eexists. split; [done|by repeat constructor].
    + destruct (command_ok 1 st); [by right|by left].
Qed.

(** ** Several calls *)

Lemma call_n_step n st r st1 :
  get_all_tasks settings st = (r, st1) ->
  call_n settings (S n) st
  = (r :: fst (call_n settings n st1), snd (call_n settings n st1)).
Proof. intros H. simpl. rewrite H. by destruct (call_n settings n st1). Qed.

Lemma parse_shop_count_issued c st :
  is_parse_shop c = false ->
  parse_shop_count (issued c st) = parse_shop_count st.
Proof.
  intros Hc. rewrite (parse_shop_count_calls st _ [c]).
  - rewrite filter_cons_False by (by rewrite Hc). simpl. lia.
  - by rewrite issued_calls.
Qed.

(** X8: with a non-empty cached value that decodes to a truthy value and
    a store that runs its next [n] commands, each of [n] calls in a row
    returns the cache envelope of that value; the store is unchanged and
    the Source Reader is never entered. *)
Theorem warm_cache_serves_every_call n st raw ex v :
  redis_db st !! key = Some (raw, ex) ->
  str_truthy raw = true ->
  json_loads raw = Return v ->
  truthy v = true ->
  (forall i, (i < n)%nat -> command_ok i st = true) ->
  fst (call_n settings n st) = replicate n (Return (cached_response v))
  /\ redis_db (snd (call_n settings n st)) = redis_db st
  /\ parse_shop_count (snd (call_n settings n st)) = parse_shop_count st.
Proof.
  intros Hdb Hne Hv Ht. revert st Hdb.
  induction n as [|n IH]; intros st Hdb Hok; [done|].
  assert (Hrun : get_all_tasks settings st
                 = (Return (cached_response v), issued (CallRedisGet key) st)).
  { apply (get_all_tasks_hit settings st raw v); try done.
    apply (cached_value_hit settings st raw ex); [apply Hok; lia|done]. }
  rewrite (call_n_step n st _ _ Hrun). simpl.
  destruct (IH (issued (CallRedisGet key) st)) as (Hrs & Hdb' & Hcount).
  - by rewrite issued_db.
  - intros i Hi. rewrite command_ok_issued. apply Hok. lia.
  - rewrite Hrs, Hdb', Hcount, issued_db.
    by rewrite parse_shop_count_issued.
Qed.

(** X9: with a non-empty cached value on which [json.loads] raises an
    exception that is not a [JSONDecodeError], and a store that runs its
    next [n] commands, each of [n] calls in a row raises that exception;
    the entry is neither deleted nor replaced and the Source Reader is
    never entered. *)
Theorem undecodable_entry_fails_every_call n st raw ex e :
  redis_db st !! key = Some (raw, ex) ->
  str_truthy raw = true ->
  json_loads raw = Raise e ->
  except_JSONDecodeError e = false ->
  (forall i, (i < n)%nat -> command_ok i st = true) ->
  fst (call_n settings n st) = replicate n (Raise e)
  /\ redis_db (snd (call_n settings n st)) = redis_db st
  /\ parse_shop_count (snd (call_n settings n st)) = parse_shop_count st.
Proof.
  intros Hdb Hne Hv He. revert st Hdb.
  induction n as [|n IH]; intros st Hdb Hok; [done|].
  assert (Hrun : get_all_tasks settings st
                 = (Raise e, issued (CallRedisGet key) st)).
  { apply (get_all_tasks_loads_error settings st raw e); try done.
    apply (cached_value_hit settings st raw ex); [apply Hok; lia|done]. }
  rewrite (call_n_step n st _ _ Hrun). simpl.
  destruct (IH (issued (CallRedisGet key) st)) as (Hrs & Hdb' & Hcount).
  - by rewrite issued_db.
  - intros i Hi. rewrite command_ok_issued. apply Hok. lia.
  - rewrite Hrs, Hdb', Hcount, issued_db.
    by rewrite parse_shop_count_issued.
Qed.

(** A miss whose write-back cannot go through: the call returns the
    Source Reader's outcome and the store is as before. *)
Lemma miss_without_write_back st :
  bytes_truthy (cached_value settings st) = false ->
  command_ok 1 st && (0 <? ttl) = false ->
  exists st' k,
    get_all_tasks settings st = (fst (parse_shop st), st')
    /\ redis_db st' = redis_db st
    /\ files st' = files st
    /\ parse_shop_count st' = S (parse_shop_count st)
    /\ redis_faults st' = drop k (redis_faults st)
    /\ (1 <= k <= 2)%nat.
Proof.
  intros Hmiss Hset.
  set (st1 := issued (CallRedisGet key) st).
  assert (Hfiles : files st1 = files st) by apply issued_files.
  assert (Hf1 : redis_faults st1 = drop 1 (redis_faults st)).
  { unfold st1. rewrite issued_faults. by destruct (redis_faults st). }
  destruct (fetch_from_source_budget st1) as (_ & _ & Hs & _ & Hf).
  exists (snd (fetch_from_source settings st1)),
    (1 + count_calls is_redis_command (fetch_calls settings st1))%nat.
  split_and!.
  - rewrite get_all_tasks_miss by done. fold st1.
    rewrite <- (parse_shop_files_only st1 st Hfiles).
    rewrite <- (fetch_from_source_result settings).
    by destruct (fetch_from_source settings st1).
  - rewrite fetch_from_source_db. unfold st1.
    rewrite command_ok_issued, Hset, issued_db.
    destruct (fst (parse_shop _)) as [r|e]; [|done].
    by destruct (json_dumps (data r)).
  - by rewrite fetch_from_source_files.
  - rewrite (parse_shop_count_calls st1 _ (fetch_calls settings st1))
      by apply (fetch_from_source_calls settings).
    rewrite fetch_calls_count. unfold st1.
    rewrite parse_shop_count_issued by done. lia.
  - by rewrite Hf, Hf1, drop_drop.
  - lia.
  - enough (count_calls is_redis_command (fetch_calls settings st1) <= 1)%nat
      by lia.
    unfold fetch_calls, cache_response_calls.
    destruct (fst (parse_shop st1)) as [r|e];
      [destruct (json_dumps (data r))|]; vm_compute; lia.
Qed.

(** X10: while the store fails every command, each of [n] calls in a row
    returns the Source Reader's outcome on the files: the Source Reader is
    entered [n] times and the store is unchanged. *)
Theorem unreachable_store_reads_the_source_every_call n st :
  (forall i, (i < 2 * n)%nat -> command_ok i st = false) ->
  fst (call_n settings n st) = replicate n (fst (parse_shop st))
  /\ redis_db (snd (call_n settings n st)) = redis_db st
  /\ parse_shop_count (snd (call_n settings n st))
     = (parse_shop_count st + n)%nat.
Proof.
  revert st. induction n as [|n IH]; intros st Hdown.
  { simpl. split_and!; try done; lia. }
  destruct (miss_without_write_back st)
    as (st' & k & Hrun & Hdb & Hfiles & Hcount & Hfaults & Hk).
  - unfold cached_value. by rewrite (Hdown 0%nat) by lia.
  - by rewrite (Hdown 1%nat) by lia.
  - rewrite (call_n_step n st _ _ Hrun). simpl.
    destruct (IH st') as (Hrs & Hdb' & Hcount').
    + intros i Hi. rewrite (command_ok_drop st st' k i Hfaults).
      apply Hdown. lia.
    + rewrite Hrs, Hdb', Hcount', Hdb, Hcount.
      rewrite (parse_shop_files_only st' st Hfiles).
      split_and!; try done. lia.
Qed.

(** X11: with an expiry setting that is not positive and nothing under
    the cache key, no call ever populates the cache, whatever the store
    does: each of [n] calls in a row returns the Source Reader's outcome,
    the Source Reader is entered [n] times and the store is unchanged. *)
Theorem non_positive_expiry_never_caches n st :
  ttl <= 0 ->
  redis_db st !! key = None ->
  fst (call_n settings n st) = replicate n (fst (parse_shop st))
  /\ redis_db (snd (call_n settings n st)) = redis_db st
  /\ parse_shop_count (snd (call_n settings n st))
     = (parse_shop_count st + n)%nat.
Proof.
  intros Httl. revert st. induction n as [|n IH]; intros st Hdb.
  { simpl. split_and!; try done; lia. }
  destruct (miss_without_write_back st)
    as (st' & k & Hrun & Hdb' & Hfiles & Hcount & _).
  - unfold cached_value. rewrite Hdb. by destruct (command_ok 0 st).
  - replace (0 <? ttl) with false by (symmetry; apply Z.ltb_ge; lia).
    by rewrite andb_false_r.
  - rewrite (call_n_step n st _ _ Hrun). simpl.
    destruct (IH st') as (Hrs & Hdb'' & Hcount'); [by rewrite Hdb'|].
    rewrite Hrs, Hdb'', Hcount', Hdb', Hcount.
    rewrite (parse_shop_files_only st' st Hfiles).
    split_and!; try done. lia.
Qed.

(** ** What a successful call leaves behind *)

(** With the store running, a source the Source Reader succeeds on and a
    payload that survives [json.dumps] and [json.loads], a call returns
    an envelope and leaves under the cache key a text that decodes to the
    payload it returned. *)
Lemma call_leaves_cache_warm st r s :
  command_ok 0 st = true ->
  command_ok 1 st = true ->
  command_ok 2 st = true ->
  0 < ttl ->
  fst (parse_shop st) = Return r ->
  json_dumps (data r) = Return s ->
  str_truthy s = true ->
  json_loads s = Return (data r) ->
  (forall raw ex e,
     redis_db st !! key = Some (raw, ex) ->
     json_loads raw = Raise e -> except_JSONDecodeError e = true) ->
  exists resp st1 raw' ex' k,
    get_all_tasks settings st = (Return resp, st1)
    /\ redis_db st1 !! key = Some (raw', ex')
    /\ str_truthy raw' = true
    /\ json_loads raw' = Return (data resp)
    /\ truthy (data resp) = true
    /\ files st1 = files st
    /\ redis_faults st1 = drop k (redis_faults st)
    /\ (k <= 3)%nat.
Proof.
  intros Hok0 Hok1 Hok2 Httl Hr Hs Hne Hback Hdec.
  assert (Htruthy : truthy (data r) = true).
  { by destruct (parse_shop_returns st r Hr)
      as (book & df & js & _ & _ & _ & _ & _ & Ht & _). }
  assert (Hfetch : forall st0 k0,
            files st0 = files st ->
            command_ok 0 st0 = true ->
            redis_faults st0 = drop k0 (redis_faults st) ->
            fetch_from_source settings st0
            = (Return r, snd (fetch_from_source settings st0))
            /\ redis_db (snd (fetch_from_source settings st0)) !! key
               = Some (s, ttl)
            /\ files (snd (fetch_from_source settings st0)) = files st
            /\ redis_faults (snd (fetch_from_source settings st0))
               = drop (S k0) (redis_faults st)).
  { intros st0 k0 Hf Hok Hfl.
    assert (Hr0 : fst (parse_shop st0) = Return r)
      by (by rewrite (parse_shop_files_only st0 st)).
    split_and!.
    - rewrite <- Hr0, <- (fetch_from_source_result settings).
      by destruct (fetch_from_source settings st0).
    - rewrite fetch_from_source_db, Hr0, Hs, Hok.
      replace (0 <? ttl) with true by (symmetry; by apply Z.ltb_lt).
      simpl. apply lookup_insert_eq.
    - by rewrite fetch_from_source_files.
    - rewrite fetch_from_source_faults, Hr0, Hs, Hfl. apply tail_drop. }
  assert (Hf1 : redis_faults (issued (CallRedisGet key) st)
                = drop 1 (redis_faults st)).
  { rewrite issued_faults. by destruct (redis_faults st). }
  destruct (get_all_tasks_paths st)
    as [(raw & v & Hraw & Hraw_ne & Hv & Ht & Hrun)
       |[(raw & e & Hraw & _ & Hv & He & _)
        |[(_ & Hrun)|(raw & msg & _ & _ & _ & Hrun)]]].
  - destruct (cached_value_Some st raw Hraw) as (_ & ex & Hdb).
    exists (cached_response v), (issued (CallRedisGet key) st), raw, ex, 1%nat.
    rewrite issued_db, issued_files. split_and!; try done. lia.
  - destruct (cached_value_Some st raw Hraw) as (_ & ex & Hdb).
    by rewrite (Hdec raw ex e Hdb Hv) in He.
  - destruct (Hfetch (issued (CallRedisGet key) st) 1%nat)
      as (Hrun' & Hdb' & Hfiles' & Hfaults');
      [apply issued_files|by rewrite command_ok_issued|done|].
    exists r, (snd (fetch_from_source settings (issued (CallRedisGet key) st))),
      s, ttl, 2%nat.
    rewrite Hrun. split_and!; try done. lia.
  - destruct (Hfetch (after_corrupt_entry settings st) 2%nat)
      as (Hrun' & Hdb' & Hfiles' & Hfaults');
      [apply after_corrupt_entry_files
      |by rewrite (command_ok_drop st _ 2 0 (after_corrupt_entry_faults st))
      |apply after_corrupt_entry_faults|].
    exists r, (snd (fetch_from_source settings (after_corrupt_entry settings st))),
      s, ttl, 3%nat.
    rewrite Hrun. split_and!; try done.
Qed.

(** X12: with the store running its next three commands, a positive
    expiry, a source the Source Reader succeeds on, a payload that
    [json.dumps] writes as a non-empty text [json.loads] decodes back, and
    a cached value, if any, on which [json.loads] returns or raises
    [JSONDecodeError]: whatever the cache key held before (nothing, a
    falsy value, text that is not JSON, a valid value), the call returns
    an envelope and the cache key afterwards holds a non-empty text that
    [json.loads] decodes to the payload the call returned. *)
Theorem successful_call_leaves_its_payload_cached st r s :
  command_ok 0 st = true ->
  command_ok 1 st = true ->
  command_ok 2 st = true ->
  0 < ttl ->
  fst (parse_shop st) = Return r ->
  json_dumps (data r) = Return s ->
  str_truthy s = true ->
  json_loads s = Return (data r) ->
  (forall raw ex e,
     redis_db st !! key = Some (raw, ex) ->
     json_loads raw = Raise e -> except_JSONDecodeError e = true) ->
  exists resp raw' ex',
    fst (get_all_tasks settings st) = Return resp
    /\ truthy (data resp) = true
    /\ redis_db (snd (get_all_tasks settings st)) !! key = Some (raw', ex')
    /\ str_truthy raw' = true
    /\ json_loads raw' = Return (data resp).
Proof.
  intros Hok0 Hok1 Hok2 Httl Hr Hs Hne Hback Hdec.
  destruct (call_leaves_cache_warm st r s)
    as (resp & st1 & raw' & ex' & k & -> & ? & ? & ? & ? & _); try done.
  by exists resp, raw', ex'.
Qed.

(** X13: with the store running its next four commands, a positive
    expiry, a source the Source Reader succeeds on, a payload that
    [json.dumps] writes as a non-empty text [json.loads] decodes back, and
    a cached value, if any, on which [json.loads] returns or raises
    [JSONDecodeError]: the call after a call returns the cache envelope
    of the payload the first one returned, without entering the Source
    Reader, whatever has become of the files in between; a changed or
    deleted workbook is not noticed. *)
Theorem next_call_ignores_the_files st r s disk :
  command_ok 0 st = true ->
  command_ok 1 st = true ->
  command_ok 2 st = true ->
  command_ok 3 st = true ->
  0 < ttl ->
  fst (parse_shop st) = Return r ->
  json_dumps (data r) = Return s ->
  str_truthy s = true ->
  json_loads s = Return (data r) ->
  (forall raw ex e,
     redis_db st !! key = Some (raw, ex) ->
     json_loads raw = Raise e -> except_JSONDecodeError e = true) ->
  exists resp st1,
    get_all_tasks settings st = (Return resp, st1)
    /\ fst (get_all_tasks settings (with_files disk st1))
       = Return (cached_response (data resp))
    /\ parse_shop_count (snd (get_all_tasks settings (with_files disk st1)))
       = parse_shop_count st1.
Proof.
  intros Hok0 Hok1 Hok2 Hok3 Httl Hr Hs Hne Hback Hdec.
  destruct (call_leaves_cache_warm st r s)
    as (resp & st1 & raw' & ex' & k & Hrun & Hdb & Hne' & Hv & Ht & _ & Hfl & Hk);
    try done.
  exists resp, st1. split; [done|].
  assert (Hok : command_ok 0 (with_files disk st1) = true).
  { rewrite (command_ok_drop st (with_files disk st1) k 0 Hfl).
    destruct k as [|[|[|[|k]]]]; try done. lia. }
  rewrite (get_all_tasks_hit settings (with_files disk st1) raw' (data resp));
    try done.
  - simpl. split; [done|]. by rewrite parse_shop_count_issued.
  - by apply (cached_value_hit settings (with_files disk st1) raw' ex').
Qed.

(** ** The Source Reader *)

(** X14: [parse_shop] returns an envelope exactly when the workbook is on
    disk, has the sheet, the sheet has rows and columns, [to_json]
    returns, and [json.loads] decodes its text to a truthy value; the
    envelope is then the source envelope of that value. *)
Theorem parse_shop_returns_exactly_when st r :
  fst (parse_shop st) = Return r
  <-> exists book df js,
        files st !! file_path = Some book
        /\ book !! sheet_name = Some df
        /\ df_empty df = false
        /\ to_json df = Return js
        /\ json_loads js = Return (data r)
        /\ truthy (data r) = true
        /\ r = source_response (data r).
Proof.
  split; [apply parse_shop_returns|].
  intros (book & df & js & Hbook & Hsheet & Hempty & Hjs & Hv & Ht & Hr).
  unfold parse_shop, parse_shop_at, bind.
  rewrite file_path_accepted. simpl. unfold read_excel. simpl.
  rewrite Hbook, Hsheet, Hempty. unfold lift. rewrite Hjs, Hv, Ht. simpl.
  by rewrite Hr.
Qed.

(** X15: when the workbook is not on disk, or is there without the sheet,
    [parse_shop] raises the exception of [read_excel], which is not an
    [HTTPException], and on a cache miss [get_all_tasks] raises it too. *)
Theorem read_excel_errors_surface_unchanged st :
  files st !! file_path = None
  \/ (exists book, files st !! file_path = Some book
                   /\ book !! sheet_name = None) ->
  exists cls msg,
    fst (read_excel file_path sheet_name st) = Raise (PyException cls msg)
    /\ fst (parse_shop st) = Raise (PyException cls msg)
    /\ (bytes_truthy (cached_value settings st) = false ->
        fst (get_all_tasks settings st) = Raise (PyException cls msg)).
Proof.
  intros Hmissing.
  assert (Hread : exists cls msg,
            fst (read_excel file_path sheet_name st)
            = Raise (PyException cls msg)).
  { unfold read_excel. destruct Hmissing as [->|(book & -> & ->)]; eauto. }
  destruct Hread as (cls & msg & Hread). exists cls, msg.
  assert (Hparse : fst (parse_shop st) = Raise (PyException cls msg)).
  { revert Hread. unfold parse_shop, parse_shop_at, bind.
    rewrite file_path_accepted. simpl. unfold read_excel. simpl.
    destruct Hmissing as [->|(book & -> & ->)]; by intros [= -> ->]. }
  split_and!; try done.
  intros Hmiss. rewrite get_all_tasks_miss by done.
  rewrite fetch_from_source_result.
  by rewrite (parse_shop_files_only _ st (issued_files _ _)).
Qed.

End Further.

(** ** The logging level *)

(** X16: for every level the type of [log_level] allows,
    [log_level_value] finds the upper-cased name in the mapping (no
    [KeyError]), and a level listed later, that is a more severe one, has
    a greater value. *)
Theorem log_level_value_is_defined_and_ordered :
  (forall level, level ∈ log_levels ->
     exists n, log_level_value level = Return n /\ 10 <= n <= 50)
  /\ (forall i j a b,
        log_levels !! i = Some a -> log_levels !! j = Some b -> (i < j)%nat ->
        exists x y,
          log_level_value a = Return x /\ log_level_value b = Return y
          /\ x < y).
Proof.
  split.
  - intros level Hin. unfold log_levels in Hin.
    repeat (apply elem_of_cons in Hin as [->|Hin]);
      [..|by apply elem_of_nil in Hin];
      eexists; (split; [vm_compute; reflexivity|lia]).
  - intros i j a b Hi Hj Hlt.
    destruct i as [|[|[|[|[|i]]]]]; simpl in Hi; try done;
      injection Hi as <-;
      (destruct j as [|[|[|[|[|j]]]]]; simpl in Hj; try done; try lia);
      injection Hj as <-;
      eexists _, _; (split_and!; [vm_compute; reflexivity..|lia]).
Qed.

(** * The JSON fragment: what is printed is read back *)

Module JsonFragmentFacts.
Import JsonFragment.

Lemma string_app_cons c (a b : string) : String c a +:+ b = String c (a +:+ b).
Proof. reflexivity. Qed.

Lemma string_app_nil_l (b : string) : "" +:+ b = b.
Proof. reflexivity. Qed.

Lemma string_app_nil_r (a : string) : a +:+ "" = a.
Proof. induction a as [|x a IH]; [done|]. by rewrite string_app_cons, IH. Qed.

Lemma string_app_assoc (a b c : string) : (a +:+ b) +:+ c = a +:+ (b +:+ c).
Proof.
  induction a as [|x a IH]; [done|]. by rewrite !string_app_cons, IH.
Qed.

Lemma string_app_length (a b : string) :
  String.length (a +:+ b) = (String.length a + String.length b)%nat.
Proof.
  induction a as [|x a IH]; [done|]. rewrite string_app_cons. simpl.
  by rewrite IH.
Qed.

Lemma skip_ws_blank w s : skip_ws w = "" -> skip_ws (w +:+ s) = skip_ws s.
Proof.
  induction w as [|c w IH]; [done|]. rewrite string_app_cons. simpl.
  destruct (is_ws c); [done|discriminate].
Qed.

(** *** Strings *)

Lemma plain_char_not_dquote c : plain_char c = true -> Ascii.eqb c dquote = false.
Proof.
  intros H. apply Ascii.eqb_neq. intros ->. vm_compute in H. discriminate.
Qed.

Lemma parse_string_body_plain s rest :
  plain_string s = true ->
  parse_string_body (s +:+ String dquote rest) = Parsed s rest.
Proof.
  induction s as [|c s IH].
  - done.
  - rewrite string_app_cons. simpl. intros [Hc Hs]%andb_prop.
    rewrite plain_char_not_dquote, Hc by done. by rewrite IH.
Qed.

(** *** Integers *)

Lemma digit_of_pretty_N_char d :
  (d < 10)%N -> digit_of (pretty_N_char d) = Some (Z.of_N d).
Proof.
  intros Hd.
  do 10 (destruct d as [|d] using N.peano_ind; [done|]).
  lia.
Qed.

Lemma parse_digits_end acc rest :
  ends_number rest = true -> parse_digits acc rest = (acc, rest).
Proof.
  destruct rest as [|c rest]; [done|]. simpl.
  by destruct (digit_of c).
Qed.

(** [pretty_N_go x s] puts the digits of [x] in front of [s]; the first is
    not zero, and reading the others from it gives [x]. *)
Lemma pretty_N_go_digits x :
  (0 < x)%N ->
  forall s,
  exists c ds d,
    pretty_N_go x s = String c (ds +:+ s)
    /\ digit_of c = Some d /\ 0 < d
    /\ forall rest, parse_digits d (ds +:+ rest) = parse_digits (Z.of_N x) rest.
Proof.
  induction x as [x IH] using (well_founded_induction N.lt_wf_0).
  intros Hx s. rewrite pretty_N_go_step by done.
  assert (Hmod : (x `mod` 10 < 10)%N) by (by apply N.mod_lt).
  destruct (decide (x `div` 10 = 0)%N) as [Hdiv|Hdiv].
  - rewrite Hdiv, pretty_N_go_0.
    assert (Hsmall : (x `mod` 10 = x)%N).
    { apply N.mod_small. by apply N.div_small_iff in Hdiv. }
    exists (pretty_N_char (x `mod` 10)), "", (Z.of_N (x `mod` 10)).
    split_and!; [done|by apply digit_of_pretty_N_char|rewrite Hsmall; lia|].
    intros rest. by rewrite Hsmall.
  - destruct (IH (x `div` 10)%N) with (s := String (pretty_N_char (x `mod` 10)) s)
      as (c & ds & d & Hgo & Hc & Hd & Hread).
    { apply N.div_lt; lia. }
    { by apply N.neq_0_lt_0. }
    exists c, (ds +:+ String (pretty_N_char (x `mod` 10)) ""), d.
    split_and!; [|done|done|].
    + rewrite Hgo. by rewrite string_app_assoc.
    + intros rest. rewrite string_app_assoc, Hread.
      rewrite string_app_cons, string_app_nil_l. simpl.
      rewrite digit_of_pretty_N_char by done. f_equal.
      rewrite (N.div_mod x 10) at 3 by done. lia.
Qed.

Lemma ends_number_not_fraction rest :
  ends_number rest = true -> starts_fraction rest = false.
Proof.
  destruct rest as [|c rest]; [done|]. unfold ends_number.
  destruct (digit_of c); [done|]. by intros ->%negb_true_iff.
Qed.

(** A digit is none of the characters the parser dispatches on. *)
Lemma digit_is_no_opener c d :
  digit_of c = Some d ->
  is_ws c = false
  /\ Ascii.eqb c "-" = false /\ Ascii.eqb c "n" = false
  /\ Ascii.eqb c "t" = false /\ Ascii.eqb c "f" = false
  /\ Ascii.eqb c "N" = false /\ Ascii.eqb c "I" = false
  /\ Ascii.eqb c dquote = false
  /\ Ascii.eqb c "[" = false /\ Ascii.eqb c "{" = false
  /\ Ascii.eqb c "]" = false /\ Ascii.eqb c "}" = false.
Proof.
  destruct c as [[] [] [] [] [] [] [] []]; vm_compute; intros [=]; done.
Qed.

Lemma parse_int_pretty (n : Z) rest :
  ends_number rest = true ->
  parse_int (pretty n +:+ rest) = Parsed (PInt n) rest.
Proof.
  intros Hrest.
  assert (Hpos : forall p : positive,
            exists c ds d,
              pretty (Z.pos p) = String c ds
              /\ digit_of c = Some d /\ 0 < d
              /\ parse_digits d (ds +:+ rest) = (Z.pos p, rest)).
  { intros p.
    destruct (pretty_N_go_digits (N.pos p) eq_refl "")
      as (c & ds & d & Hgo & Hc & Hd & Hread).
    exists c, ds, d. split_and!; [|done|done|].
    - rewrite string_app_nil_r in Hgo. exact Hgo.
    - rewrite Hread. by apply parse_digits_end. }
  destruct n as [|p|p].
  - change (pretty 0) with "0". rewrite string_app_cons, string_app_nil_l.
    unfold parse_int. simpl.
    by rewrite ends_number_not_fraction.
  - destruct (Hpos p) as (c & ds & d & -> & Hc & Hd & Hread).
    rewrite string_app_cons. unfold parse_int.
    destruct (digit_is_no_opener c d Hc) as (_ & -> & _).
    rewrite Hc. replace (d =? 0) with false by (symmetry; apply Z.eqb_neq; lia).
    rewrite Hread. by rewrite ends_number_not_fraction.
  - destruct (Hpos p) as (c & ds & d & Hpretty & Hc & Hd & Hread).
    change (pretty (Z.neg p)) with ("-" +:+ pretty (Z.pos p)).
    rewrite Hpretty, !string_app_cons, string_app_nil_l. unfold parse_int.
    simpl. rewrite Hc.
    replace (d =? 0) with false by (symmetry; apply Z.eqb_neq; lia).
    rewrite Hread. by rewrite ends_number_not_fraction.
Qed.

(** *** Sequences *)

Lemma join_cons sep p q ps :
  join sep (p :: q :: ps) = p +:+ sep +:+ join sep (q :: ps).
Proof. reflexivity. Qed.

Lemma join_length sep ps :
  Forall (fun p => p <> "") ps ->
  (length ps <= String.length (join sep ps))%nat.
Proof.
  induction 1 as [|p ps Hp _ IH]; [done|].
  destruct ps as [|q ps].
  - destruct p; [done|]. simpl. lia.
  - rewrite join_cons, !string_app_length.
    destruct p; [done|]. simpl in *. lia.
Qed.

Lemma parse_seq_join {A : Type} (elem : string -> parsed A) close ws :
  is_ws close = false ->
  Ascii.eqb close "," = false ->
  follows (String close "") = true ->
  skip_ws ws = "" ->
  forall ps vs,
    Forall2 (parses_as elem) ps vs ->
    ps <> [] ->
    forall fuel acc w rest,
      skip_ws w = "" ->
      (length ps <= fuel)%nat ->
      parse_seq elem close fuel
        (w +:+ join (String "," ws) ps +:+ String close rest) acc
      = Parsed (acc ++ vs)%list rest.
Proof.
  intros Hclose Hcomma Hfollows Hws ps vs Hall.
  induction Hall as [|p v ps vs Hp Hall IH]; [done|].
  intros _ fuel acc w rest Hw Hfuel.
  destruct fuel as [|fuel]; [simpl in Hfuel; lia|].
  destruct ps as [|q ps].
  - apply Forall2_nil_inv_l in Hall as ->.
    simpl. rewrite (Hp w (String close rest)); [|done|].
    + simpl. rewrite Hclose, Hcomma. by rewrite Ascii.eqb_refl.
    + simpl in *. done.
  - rewrite join_cons, !string_app_assoc, string_app_cons.
    specialize (IH ltac:(done) fuel (acc ++ [v])%list ws rest Hws).
    set (tail := join (String "," ws) (q :: ps)) in *.
    simpl. rewrite (Hp w); [|done|done].
    simpl. rewrite IH; [by rewrite <- app_assoc|].
    simpl in Hfuel. simpl. lia.
Qed.

(** *** Dicts *)

Lemma fold_dict_set items :
  forall acc,
    NoDup (fst <$> (acc ++ items))%list ->
    fold_left (fun d kv => dict_set (fst kv) (snd kv) d) items acc
    = (acc ++ items)%list.
Proof.
  assert (Hset : forall k v acc,
            k ∉ (fst <$> acc) -> dict_set k v acc = (acc ++ [(k, v)])%list).
  { intros k v acc. induction acc as [|[k' v'] acc IH]; [done|].
    simpl. intros [Hne Hin]%not_elem_of_cons.
    destruct (String.eqb_spec k k'); [done|]. by rewrite IH. }
  induction items as [|[k v] items IH]; intros acc Hnd; simpl.
  - by rewrite app_nil_r.
  - rewrite Hset.
    + rewrite IH; [by rewrite <- app_assoc|]. by rewrite <- app_assoc.
    + rewrite fmap_app in Hnd. apply NoDup_app in Hnd as (_ & Hdisj & _).
      intros Hin. apply (Hdisj k Hin). simpl. left.
Qed.

(** *** Values *)

Lemma pyval_nested_ind (P : pyval -> Prop) :
  P PNone ->
  (forall b, P (PBool b)) ->
  (forall n, P (PInt n)) ->
  (forall f, P (PFloat f)) ->
  (forall s, P (PStr s)) ->
  (forall items, Forall P items -> P (PList items)) ->
  (forall items, Forall (fun kv => P (snd kv)) items -> P (PDict items)) ->
  forall v, P v.
Proof.
  intros HNone HBool HInt HFloat HStr HList HDict.
  fix IH 1.
  intros [|b|n|f|s|items|items];
    [apply HNone | apply HBool | apply HInt | apply HFloat | apply HStr | | ].
  - apply HList.
    induction items as [|x items IHitems]; constructor; [apply IH|exact IHitems].
  - apply HDict.
    induction items as [|[k x] items IHitems]; constructor;
      [apply IH|exact IHitems].
Qed.

Lemma traverse_Some {A B : Type} (f : A -> option B) l ys :
  traverse f l = Some ys -> Forall2 (fun x y => f x = Some y) l ys.
Proof.
  revert ys. induction l as [|x l IH]; intros ys; simpl.
  - intros [= <-]. constructor.
  - destruct (f x) as [y|] eqn:Hy; [|done].
    destruct (traverse f l) as [ys'|]; [|done].
    intros [= <-]. constructor; auto.
Qed.

(** The first character of a printed integer. *)
Lemma pretty_Z_opener (n : Z) :
  exists c ds,
    pretty n = String c ds
    /\ is_ws c = false
    /\ Ascii.eqb c "n" = false /\ Ascii.eqb c "t" = false
    /\ Ascii.eqb c "f" = false
    /\ Ascii.eqb c "N" = false /\ Ascii.eqb c "I" = false
    /\ Ascii.eqb c dquote = false
    /\ Ascii.eqb c "[" = false /\ Ascii.eqb c "{" = false
    /\ Ascii.eqb c "]" = false /\ Ascii.eqb c "}" = false.
Proof.
  destruct n as [|p|p].
  - exists "0"%char, "". by split_and!.
  - destruct (pretty_N_go_digits (N.pos p) eq_refl "")
      as (c & ds & d & Hgo & Hc & _).
    exists c, (ds +:+ ""). split; [exact Hgo|].
    destruct (digit_is_no_opener c d Hc) as (? & _ & ?). done.
  - exists "-"%char, (pretty (Z.pos p)). by split_and!.
Qed.

Lemma print_opener isep ksep v s :
  print isep ksep v = Some s ->
  exists c s',
    s = String c s' /\ is_ws c = false
    /\ Ascii.eqb c "]" = false /\ Ascii.eqb c "}" = false.
Proof.
  destruct v as [|[]|n|f|t|items|items]; simpl.
  - intros [= <-]. by eexists _, _.
  - intros [= <-]. by eexists _, _.
  - intros [= <-]. by eexists _, _.
  - intros [= <-].
    destruct (pretty_Z_opener n)
      as (c & ds & -> & ? & _ & _ & _ & _ & _ & _ & _ & _ & ? & ?).
    by exists c, ds.
  - done.
  - destruct (plain_string t); [|done]. intros [= <-]. by eexists _, _.
  - destruct (traverse _ items); [|done]. intros [= <-]. by eexists _, _.
  - destruct (bool_decide _); [|done].
    destruct (traverse _ items); [|done]. intros [= <-]. by eexists _, _.
Qed.

Lemma depth_items_le items fuel :
  (S (foldr (fun x d => Nat.max (depth x) d) 0%nat items) <= S fuel)%nat ->
  Forall (fun x => (depth x <= fuel)%nat) items.
Proof.
  intros H. apply Forall_forall. intros x Hx.
  induction items as [|y items IH]; [by apply elem_of_nil in Hx|].
  simpl in H. apply elem_of_cons in Hx as [->|Hx]; [lia|].
  apply IH; [lia|done].
Qed.

Lemma depth_members_le (items : list (string * pyval)) fuel :
  (S (foldr (fun kv d => Nat.max (depth (snd kv)) d) 0%nat items) <= S fuel)%nat ->
  Forall (fun kv => (depth (snd kv) <= fuel)%nat) items.
Proof.
  intros H. apply Forall_forall. intros x Hx.
  induction items as [|y items IH]; [by apply elem_of_nil in Hx|].
  simpl in H. apply elem_of_cons in Hx as [->|Hx]; [lia|].
  apply IH; [lia|done].
Qed.

(** *** The round trip *)

Section RoundTrip.
Variables wi wk : string.
Hypothesis wi_blank : skip_ws wi = "".
Hypothesis wk_blank : skip_ws wk = "".

Local Abbreviation item_sep := (String "," wi).
Local Abbreviation key_sep := (String ":" wk).

Lemma parse_value_blank fuel w s :
  skip_ws w = "" -> parse_value fuel (w +:+ s) = parse_value fuel s.
Proof.
  intros Hw. destruct fuel as [|fuel]; [done|]. simpl.
  by rewrite skip_ws_blank.
Qed.

Lemma follows_ends_number r : follows r = true -> ends_number r = true.
Proof.
  destruct r as [|c r]; [done|]. simpl.
  destruct c as [[] [] [] [] [] [] [] []]; vm_compute; done.
Qed.

Lemma parse_member_printed fuel k p x :
  plain_string k = true ->
  parses_as (parse_value fuel) p x ->
  parses_as (parse_member (parse_value fuel)) (quote k +:+ key_sep +:+ p) (k, x).
Proof.
  intros Hk Hp w r Hw Hr. unfold parse_member.
  rewrite skip_ws_blank by done. unfold quote.
  rewrite !string_app_cons, !string_app_assoc, !string_app_cons,
    string_app_nil_l.
  simpl. rewrite parse_string_body_plain by done. simpl.
  by rewrite string_app_assoc, (Hp wk r).
Qed.

Lemma drop_prefix_char a c t :
  drop_prefix (String a "") (String c t)
  = if Ascii.eqb a c then Some t else None.
Proof. reflexivity. Qed.

Lemma parse_value_list fuel s' :
  parse_value (S fuel) (String "[" s')
  = match drop_prefix "]" (skip_ws s') with
    | Some rest => Parsed (PList []) rest
    | None =>
        match parse_seq (parse_value fuel) "]" (String.length s') s' [] with
        | Parsed items rest => Parsed (PList items) rest
        | Invalid => Invalid
        | Unsupported => Unsupported
        end
    end.
Proof. reflexivity. Qed.

Lemma parse_value_dict fuel s' :
  parse_value (S fuel) (String "{" s')
  = match drop_prefix "}" (skip_ws s') with
    | Some rest => Parsed (PDict []) rest
    | None =>
        match parse_seq (parse_member (parse_value fuel)) "}"
                (String.length s') s' [] with
        | Parsed items rest =>
            Parsed (PDict (fold_left (fun d kv => dict_set (fst kv) (snd kv) d)
                             items [])) rest
        | Invalid => Invalid
        | Unsupported => Unsupported
        end
    end.
Proof. reflexivity. Qed.

(** A non-empty bracketed sequence of printed parts is read back part by
    part. *)
Lemma parse_seq_printed {A : Type} (elem : string -> parsed A) close
    (parts : list string) (vs : list A) r :
  is_ws close = false ->
  Ascii.eqb close "," = false ->
  follows (String close "") = true ->
  Forall2 (parses_as elem) parts vs ->
  Forall (fun p => exists c p', p = String c p' /\ is_ws c = false
                                /\ Ascii.eqb c "]" = false
                                /\ Ascii.eqb c "}" = false) parts ->
  parts <> [] ->
  let text := join item_sep parts +:+ String close r in
  skip_ws text = text
  /\ drop_prefix "]" text = None
  /\ drop_prefix "}" text = None
  /\ parse_seq elem close (String.length text) text [] = Parsed vs r.
Proof.
  intros Hclose Hcomma Hfollows Hall Hopen Hne text.
  assert (Htext : exists c t', text = String c t' /\ is_ws c = false
                               /\ Ascii.eqb c "]" = false
                               /\ Ascii.eqb c "}" = false).
  { unfold text. destruct Hopen as [|p ps (c & p' & -> & Hc) _]; [done|].
    destruct ps; simpl; rewrite ?string_app_cons; eauto. }
  destruct Htext as (c & t' & Htext & Hc & Hsq & Hbr).
  split_and!.
  - rewrite Htext. simpl. by rewrite Hc.
  - rewrite Htext, drop_prefix_char. by rewrite Ascii.eqb_sym, Hsq.
  - rewrite Htext, drop_prefix_char. by rewrite Ascii.eqb_sym, Hbr.
  - pose proof (parse_seq_join elem close wi Hclose Hcomma Hfollows wi_blank
                  parts vs Hall Hne (String.length text) [] "" r eq_refl) as Hseq.
    rewrite string_app_nil_l in Hseq. apply Hseq.
    unfold text. rewrite string_app_length.
    etrans; [apply (join_length item_sep)|lia].
    eapply Forall_impl; [exact Hopen|]. by intros p (c' & p' & -> & _).
Qed.

Theorem parse_print v :
  forall s,
    print item_sep key_sep v = Some s ->
    forall fuel,
      (depth v <= fuel)%nat ->
      parses_as (parse_value fuel) s v.
Proof.
  induction v as [|b|n|f|t|items IH|items IH] using pyval_nested_ind;
    intros s Hs fuel Hfuel w r Hw Hr;
    (destruct fuel as [|fuel]; [simpl in Hfuel; lia|]);
    rewrite parse_value_blank by done.
  - injection Hs as <-. done.
  - destruct b; injection Hs as <-; done.
  - injection Hs as <-.
    destruct (pretty_Z_opener n)
      as (c & ds & Hn & Hws & Hn' & Ht & Hf & HN & HI & Hq & Hl & Hb & _).
    pose proof (parse_int_pretty n r (follows_ends_number r Hr)) as Hint.
    rewrite Hn, string_app_cons in *. simpl.
    by rewrite Hws, Hn', Ht, Hf, HN, HI, Hq, Hl, Hb.
  - done.
  - simpl in Hs. destruct (plain_string t) eqn:Ht; [|done].
    injection Hs as <-. unfold quote.
    rewrite !string_app_cons, !string_app_assoc, !string_app_cons,
      string_app_nil_l.
    simpl. by rewrite parse_string_body_plain.
  - simpl in Hs.
    destruct (traverse (print item_sep key_sep) items) as [parts|] eqn:Hparts;
      [|done].
    injection Hs as <-.
    apply traverse_Some in Hparts.
    rewrite !string_app_cons, string_app_nil_l, string_app_assoc.
    rewrite string_app_cons, string_app_nil_l, parse_value_list.
    destruct (decide (parts = [])) as [->|Hne].
    { apply Forall2_nil_inv_r in Hparts as ->. done. }
    apply depth_items_le in Hfuel.
    assert (Hall : Forall2 (parses_as (parse_value fuel)) parts items).
    { clear Hne. induction Hparts as [|x p items parts Hx _ IHparts];
        [constructor|].
      apply Forall_cons in IH as [IHx IH].
      apply Forall_cons in Hfuel as [Hdx Hfuel].
      constructor; [by apply IHx|by apply IHparts]. }
    assert (Hopen : Forall (fun p => exists c p', p = String c p'
                              /\ is_ws c = false
                              /\ Ascii.eqb c "]" = false
                              /\ Ascii.eqb c "}" = false) parts).
    { clear Hne IH Hfuel Hall.
      induction Hparts as [|x p items parts Hx _ IHparts]; constructor; [|done].
      destruct (print_opener _ _ _ _ Hx) as (c & p' & -> & ?). eauto. }
    by destruct (parse_seq_printed (parse_value fuel) "]"
                   parts items r eq_refl eq_refl eq_refl Hall Hopen Hne)
      as (-> & -> & _ & ->).
  - simpl in Hs.
    destruct (bool_decide (NoDup (fst <$> items))) eqn:Hnd; [|done].
    apply bool_decide_eq_true in Hnd.
    destruct (traverse _ items) as [parts|] eqn:Hparts; [|done].
    injection Hs as <-.
    apply traverse_Some in Hparts.
    rewrite !string_app_cons, string_app_nil_l, string_app_assoc.
    rewrite string_app_cons, string_app_nil_l, parse_value_dict.
    destruct (decide (parts = [])) as [->|Hne].
    { apply Forall2_nil_inv_r in Hparts as ->. done. }
    apply depth_members_le in Hfuel.
    assert (Hall : Forall2 (parses_as (parse_member (parse_value fuel)))
                     parts items).
    { clear Hne Hnd. induction Hparts as [|[k x] p items parts Hx _ IHparts];
        [constructor|].
      apply Forall_cons in IH as [IHx IH].
      apply Forall_cons in Hfuel as [Hdx Hfuel].
      constructor; [|by apply IHparts].
      simpl in Hx. unfold print_member in Hx.
      destruct (print item_sep key_sep x) as [px|] eqn:Hpx; [|done].
      destruct (plain_string k) eqn:Hk; [|done].
      injection Hx as <-.
      apply parse_member_printed; [done|]. by apply IHx. }
    assert (Hopen : Forall (fun p => exists c p', p = String c p'
                              /\ is_ws c = false
                              /\ Ascii.eqb c "]" = false
                              /\ Ascii.eqb c "}" = false) parts).
    { clear Hne IH Hfuel Hnd Hall.
      induction Hparts as [|[k x] p items parts Hx _ IHparts];
        constructor; [|done].
      simpl in Hx. unfold print_member in Hx.
      destruct (print item_sep key_sep x) as [px|]; [|done].
      destruct (plain_string k); [|done].
      injection Hx as <-. unfold quote. rewrite string_app_cons.
      by eexists _, _. }
    destruct (parse_seq_printed (parse_member (parse_value fuel)) "}"
                parts items r eq_refl eq_refl eq_refl Hall Hopen Hne)
      as (-> & _ & -> & ->).
    by rewrite (fold_dict_set items []).
Qed.

End RoundTrip.

(** *** Enough fuel *)

Lemma join_length_elem sep parts p :
  p ∈ parts -> (String.length p <= String.length (join sep parts))%nat.
Proof.
  induction parts as [|q parts IH]; [by intros ?%elem_of_nil|].
  destruct parts as [|q' parts].
  - intros ->%list_elem_of_singleton. done.
  - rewrite join_cons, !string_app_length.
    intros [->|Hin]%elem_of_cons; [lia|]. specialize (IH Hin). lia.
Qed.

Lemma depth_le_length isep ksep v :
  forall s, print isep ksep v = Some s -> (depth v <= String.length s)%nat.
Proof.
  induction v as [|b|n|f|t|items IH|items IH] using pyval_nested_ind;
    intros s Hs.
  - destruct (print_opener _ _ _ _ Hs) as (c & s' & -> & _). simpl. lia.
  - destruct (print_opener _ _ _ _ Hs) as (c & s' & -> & _). simpl. lia.
  - destruct (print_opener _ _ _ _ Hs) as (c & s' & -> & _). simpl. lia.
  - done.
  - destruct (print_opener _ _ _ _ Hs) as (c & s' & -> & _). simpl. lia.
  - simpl in Hs.
    destruct (traverse (print isep ksep) items) as [parts|] eqn:Hparts; [|done].
    injection Hs as <-. apply traverse_Some in Hparts.
    rewrite !string_app_length. simpl.
    enough (foldr (fun x d => Nat.max (depth x) d) 0%nat items
            <= String.length (join isep parts))%nat by lia.
    assert (Hin : forall p, p ∈ parts ->
              (String.length p <= String.length (join isep parts))%nat)
      by (intros p; apply join_length_elem).
    revert Hin. generalize (String.length (join isep parts)). intros bound.
    induction Hparts as [|x p items parts Hx _ IHparts]; intros Hin; simpl.
    + lia.
    + apply Forall_cons in IH as [IHx IH].
      specialize (IHx p Hx).
      pose proof (Hin p ltac:(left)).
      specialize (IHparts IH (fun q Hq => Hin q ltac:(by right))). lia.
  - simpl in Hs.
    destruct (bool_decide (NoDup (fst <$> items))); [|done].
    destruct (traverse _ items) as [parts|] eqn:Hparts; [|done].
    injection Hs as <-. apply traverse_Some in Hparts.
    rewrite !string_app_length. simpl.
    enough (foldr (fun kv d => Nat.max (depth (snd kv)) d) 0%nat items
            <= String.length (join isep parts))%nat by lia.
    assert (Hin : forall p, p ∈ parts ->
              (String.length p <= String.length (join isep parts))%nat)
      by (intros p; apply join_length_elem).
    revert Hin. generalize (String.length (join isep parts)). intros bound.
    induction Hparts as [|[k x] p items parts Hx _ IHparts]; intros Hin; simpl.
    + lia.
    + apply Forall_cons in IH as [IHx IH]. simpl in Hx, IHx.
      unfold print_member in Hx.
      destruct (print isep ksep x) as [px|] eqn:Hpx; [|done].
      destruct (plain_string k); [|done]. injection Hx as <-.
      specialize (IHx px eq_refl).
      pose proof (Hin _ ltac:(left)) as Hp.
      rewrite !string_app_length in Hp.
      specialize (IHparts IH (fun q Hq => Hin q ltac:(by right))). lia.
Qed.

(** *** Decoding what was printed *)

Lemma byte_values_app a b :
  byte_values (a +:+ b) = (byte_values a ++ byte_values b)%list.
Proof.
  induction a as [|c a IH]; [done|]. rewrite string_app_cons. simpl.
  by rewrite IH.
Qed.

Lemma seven_bit_app a b : seven_bit a -> seven_bit b -> seven_bit (a +:+ b).
Proof.
  unfold seven_bit. rewrite byte_values_app. intros Ha Hb.
  by apply Forall_app.
Qed.

Lemma seven_bit_cons c s :
  (0 < nat_of_ascii c < 128)%nat -> seven_bit s -> seven_bit (String c s).
Proof. intros Hc Hs. by constructor. Qed.

Lemma seven_bit_char c :
  (0 <? nat_of_ascii c)%nat && (nat_of_ascii c <? 128)%nat = true ->
  (0 < nat_of_ascii c < 128)%nat.
Proof.
  intros [Hlo Hhi]%andb_prop. by apply Nat.ltb_lt in Hlo, Hhi.
Qed.

Lemma plain_string_seven_bit s : plain_string s = true -> seven_bit s.
Proof.
  induction s as [|c s IH]; simpl.
  - intros _. constructor.
  - intros [Hc Hs]%andb_prop. apply seven_bit_cons; [|by apply IH].
    unfold plain_char in Hc.
    apply andb_prop in Hc as [Hc _]. apply andb_prop in Hc as [Hc _].
    apply andb_prop in Hc as [Hc _]. apply andb_prop in Hc as [Hlo Hhi].
    apply Nat.leb_le in Hlo, Hhi. lia.
Qed.

Lemma blank_seven_bit w : skip_ws w = "" -> seven_bit w.
Proof.
  induction w as [|c w IH]; simpl.
  - intros _. constructor.
  - destruct (is_ws c) eqn:Hc; [|done]. intros Hw.
    apply seven_bit_cons; [|by apply IH].
    unfold is_ws in Hc.
    repeat (apply orb_prop in Hc as [Hc|Hc]); apply Nat.eqb_eq in Hc; lia.
Qed.

Lemma pretty_N_char_seven_bit d :
  (d < 10)%N -> (0 < nat_of_ascii (pretty_N_char d) < 128)%nat.
Proof.
  intros Hd. apply seven_bit_char.
  do 10 (destruct d as [|d] using N.peano_ind; [done|]).
  lia.
Qed.

Lemma pretty_N_go_seven_bit x :
  forall s, seven_bit s -> seven_bit (pretty_N_go x s).
Proof.
  induction x as [x IH] using (well_founded_induction N.lt_wf_0).
  intros s Hs. destruct (decide (x = 0)%N) as [->|Hx].
  - by rewrite pretty_N_go_0.
  - rewrite pretty_N_go_step by lia. apply IH.
    + apply N.div_lt; lia.
    + apply seven_bit_cons; [|done].
      apply pretty_N_char_seven_bit. by apply N.mod_lt.
Qed.

Lemma pretty_Z_seven_bit (n : Z) : seven_bit (pretty n).
Proof.
  assert (Hpos : forall p, seven_bit (pretty (Z.pos p))).
  { intros p. apply (pretty_N_go_seven_bit (N.pos p) ""). constructor. }
  destruct n as [|p|p].
  - change (pretty 0) with "0". by apply plain_string_seven_bit.
  - apply Hpos.
  - change (pretty (Z.neg p)) with ("-" +:+ pretty (Z.pos p)).
    apply seven_bit_app; [by apply plain_string_seven_bit|apply Hpos].
Qed.

Lemma quote_seven_bit s : seven_bit s -> seven_bit (quote s).
Proof.
  intros Hs. unfold quote. apply seven_bit_cons; [by apply seven_bit_char|].
  apply seven_bit_app; [done|].
  apply seven_bit_cons; [by apply seven_bit_char|]. constructor.
Qed.

Lemma join_seven_bit sep parts :
  seven_bit sep -> Forall seven_bit parts -> seven_bit (join sep parts).
Proof.
  intros Hsep. induction 1 as [|p parts Hp Hparts IH]; [constructor|].
  destruct parts as [|q parts]; [done|].
  rewrite join_cons. apply seven_bit_app; [done|]. by apply seven_bit_app.
Qed.

Lemma bracket_seven_bit open close sep parts s :
  seven_bit open -> seven_bit close -> seven_bit sep ->
  Forall seven_bit parts ->
  bracket open close sep (Some parts) = Some s -> seven_bit s.
Proof.
  intros Hopen Hclose Hsep Hparts [= <-].
  apply seven_bit_app; [done|]. apply seven_bit_app; [|done].
  by apply join_seven_bit.
Qed.

Lemma print_seven_bit isep ksep v :
  seven_bit isep -> seven_bit ksep ->
  forall s, print isep ksep v = Some s -> seven_bit s.
Proof.
  intros Hisep Hksep.
  assert (Hword : forall w : string, plain_string w = true -> seven_bit w)
    by apply plain_string_seven_bit.
  induction v as [|b|n|f|t|items IH|items IH] using pyval_nested_ind;
    intros s Hs; simpl in Hs.
  - injection Hs as <-. by apply Hword.
  - destruct b; injection Hs as <-; by apply Hword.
  - injection Hs as <-. apply pretty_Z_seven_bit.
  - done.
  - destruct (plain_string t) eqn:Ht; [|done]. injection Hs as <-.
    apply quote_seven_bit. by apply Hword.
  - destruct (traverse (print isep ksep) items) as [parts|] eqn:Hparts; [|done].
    apply traverse_Some in Hparts.
    apply (bracket_seven_bit "[" "]" isep parts); try done;
      try (by apply Hword).
    clear Hs. induction Hparts as [|x p items parts Hx _ IHparts];
      [constructor|].
    apply Forall_cons in IH as [IHx IH]. constructor; [by apply IHx|].
    by apply IHparts.
  - destruct (bool_decide (NoDup (fst <$> items))); [|done].
    destruct (traverse _ items) as [parts|] eqn:Hparts; [|done].
    apply traverse_Some in Hparts.
    apply (bracket_seven_bit "{" "}" isep parts); try done;
      try (by apply Hword).
    clear Hs. induction Hparts as [|[k x] p items parts Hx _ IHparts];
      [constructor|].
    apply Forall_cons in IH as [IHx IH]. simpl in Hx, IHx.
    constructor; [|by apply IHparts].
    unfold print_member in Hx.
    destruct (print isep ksep x) as [px|] eqn:Hpx; [|done].
    destruct (plain_string k) eqn:Hk; [|done]. injection Hx as <-.
    apply seven_bit_app; [apply quote_seven_bit; by apply Hword|].
    apply seven_bit_app; [done|]. by apply IHx.
Qed.

Lemma bstartswith_miss p ps b :
  Forall (fun n => (0 < n < 128)%nat) b ->
  ~ (0 < p < 128)%nat ->
  bstartswith (p :: ps) b = false.
Proof.
  intros Hb Hp. unfold bstartswith. apply bool_decide_eq_false.
  destruct Hb as [|n b Hn Hb]; simpl; [done|].
  intros [= -> _]. done.
Qed.

Lemma detect_encoding_seven_bit s :
  seven_bit s -> detect_encoding (byte_values s) = Utf8.
Proof.
  unfold seven_bit. generalize (byte_values s). intros b Hb.
  unfold detect_encoding, BOM_UTF32_BE, BOM_UTF32_LE, BOM_UTF16_BE,
    BOM_UTF16_LE, BOM_UTF8.
  rewrite !bstartswith_miss by (done || lia). simpl.
  destruct Hb as [|b0 l0 Hb0 Hl0]; [done|].
  destruct Hl0 as [|b1 l1 Hb1 Hl1]; [done|].
  assert (H0 : (b0 =? 0)%nat = false) by (apply Nat.eqb_neq; lia).
  assert (H1 : (b1 =? 0)%nat = false) by (apply Nat.eqb_neq; lia).
  rewrite H0, H1.
  by destruct Hl1 as [|b2 l2 Hb2 [|b3 l3 Hb3 Hl3]].
Qed.

(** Seven-bit text decodes to itself. *)
Lemma decode_seven_bit s : seven_bit s -> decode s = Text s.
Proof.
  intros Hs. unfold decode. rewrite detect_encoding_seven_bit by done.
  unfold decode_utf8.
  destruct (find _ (byte_values s)) as [n|] eqn:Hfind; [|done].
  apply find_some in Hfind as [Hin Hn].
  unfold seven_bit in Hs. rewrite List.Forall_forall in Hs.
  apply Hs in Hin. apply Nat.leb_le in Hn. lia.
Qed.

(** *** [loads] after [dumps] and after [frame_to_json] *)

Lemma loads_print wi wk v s :
  skip_ws wi = "" -> skip_ws wk = "" ->
  print (String "," wi) (String ":" wk) v = Some s ->
  loads s = Return v /\ str_truthy s = true.
Proof.
  intros Hwi Hwk Hs. split.
  - unfold loads. rewrite decode_seven_bit.
    2:{ apply (print_seven_bit (String "," wi) (String ":" wk) v); [| |done];
          (apply seven_bit_cons;
             [by apply seven_bit_char|by apply blank_seven_bit]). }
    unfold loads_text.
    pose proof (parse_print wi wk Hwi Hwk v s Hs (S (String.length s))) as Hparse.
    rewrite <- (string_app_nil_r s) at 2.
    rewrite <- (string_app_nil_l (s +:+ "")).
    rewrite Hparse; [done| |done|done].
    pose proof (depth_le_length _ _ v s Hs). lia.
  - by destruct (print_opener _ _ _ _ Hs) as (c & s' & -> & _).
Qed.

(** Whatever [dumps] writes, [loads] reads back. *)
Theorem loads_dumps v s :
  dumps v = Return s -> loads s = Return v /\ str_truthy s = true.
Proof.
  unfold dumps. destruct (print ", " ": " v) as [s'|] eqn:Hs; [|done].
  intros [= <-]. by apply (loads_print " " " ").
Qed.

(** Whatever [frame_to_json] writes, [loads] reads back as the records of
    the frame. *)
Theorem loads_frame_to_json df js :
  frame_to_json df = Return js -> loads js = Return (PList (records_of df)).
Proof.
  unfold frame_to_json.
  destruct (print "," ":" (PList (records_of df))) as [s'|] eqn:Hs; [|done].
  intros [= <-]. by apply (loads_print "" "").
Qed.



End JsonFragmentFacts.

(** ** The fragment library meets what the theorems ask of the library

    The theorems on the cold and warm call and on the rows read from the
    sheet take the behaviour of [json.dumps], [json.loads] and [to_json]
    at the payload as hypotheses.  For the executable library they hold
    at every payload it serializes and every frame it writes. *)

Section FragmentLibrary.
Existing Instance JsonFragment.lib.

Lemma fragment_payload_round_trips st r s :
  fst (parse_shop st) = Return r ->
  json_dumps (data r) = Return s ->
  str_truthy s = true /\ json_loads s = Return (data r).
Proof.
  intros _ Hs. by destruct (JsonFragmentFacts.loads_dumps (data r) s Hs).
Qed.

Lemma fragment_frame_normalizes df js :
  to_json df = Return js ->
  json_loads js = Return (PList (records_of df))
  /\ length (records_of df) = length (rows df).
Proof.
  intros Hjs. split.
  - by apply JsonFragmentFacts.loads_frame_to_json.
  - unfold records_of. apply length_fmap.
Qed.

End FragmentLibrary.

(** * The theorems at concrete worlds *)

Section Examples.
Existing Instance JsonFragment.lib.

Example truthy_values :
  truthy (PList []) = false /\ truthy PNone = false /\ truthy (PInt 0) = false
  /\ truthy (PStr "") = false /\ truthy (PDict []) = false
  /\ truthy (PBool false) = false /\ truthy (PFloat (S754_zero true)) = false
  /\ truthy (PList [PDict []]) = true /\ truthy (PFloat S754_nan) = true.
Proof. by split_and!. Qed.

Example endswith_values :
  endswith "PlayIT.xlsx" ".xlsx" = true /\ endswith "PlayIT.xls" ".xlsx" = false
  /\ endswith "xlsx" ".xlsx" = false /\ endswith "a.xlsx.bak" ".xlsx" = false
  /\ str_or ".xlsx" ".xls" = ".xlsx" /\ str_or "" ".xls" = ".xls".
Proof. by split_and!. Qed.

Example loads_values :
  json_loads "[]" = Return (PList [])
  /\ json_loads " [1, -20, null, [true, {}]] "
     = Return (PList [PInt 1; PInt (-20); PNone; PList [PBool true; PDict []]])
  /\ json_loads "{not json" = Raise (JSONDecodeError "Expecting value")
  /\ json_loads "" = Raise (JSONDecodeError "Expecting value")
  /\ json_loads "[1,]" = Raise (JSONDecodeError "Expecting value")
  /\ json_loads "01" = Raise (JSONDecodeError "Extra data").
Proof. split_and!; vm_compute; reflexivity. Qed.

(** Bytes that are not UTF-8 are an error of the decoding, not of the
    JSON reader; other encodings, text beyond ASCII, fractions and the
    constants of IEEE 754 are outside the fragment. *)
Example loads_beyond_the_fragment :
  json_loads invalid_utf8
  = Raise (PyException "UnicodeDecodeError" "invalid start byte")
  /\ json_loads (String (ascii_of_nat 128) "[]")
     = Raise (PyException "UnicodeDecodeError" "invalid start byte")
  /\ json_loads (String (ascii_of_nat 255) (String (ascii_of_nat 254) "1"))
     = JsonFragment.unsupported
  /\ json_loads (String "1" (String (ascii_of_nat 0) ""))
     = JsonFragment.unsupported
  /\ json_loads (String (ascii_of_nat 195) (String (ascii_of_nat 169) ""))
     = JsonFragment.unsupported
  /\ json_loads "1.5" = JsonFragment.unsupported
  /\ json_loads "-Infinity" = JsonFragment.unsupported
  /\ json_loads "NaN" = JsonFragment.unsupported
  /\ json_loads "-" = Raise (JSONDecodeError "Expecting value").
Proof. split_and!; vm_compute; reflexivity. Qed.

Lemma catalogue_dumped_decodes :
  json_loads catalogue_dumped = Return (PList (records_of catalogue))
  /\ to_json catalogue = Return catalogue_to_json
  /\ json_loads catalogue_to_json = Return (PList (records_of catalogue)).
Proof. split_and!; vm_compute; reflexivity. Qed.

(** A warm cache holding the serialized catalogue is answered from the
    cache. *)
Lemma cache_hit_serves_cached_value_witness :
  fst (get_all_tasks default_settings warm_world)
  = Return {| status := 200; details := "Данные получены из кеша.";
              data := PList (records_of catalogue) |}
  /\ calls (snd (get_all_tasks default_settings warm_world))
     = (calls warm_world ++ [CallRedisGet "tasks:all"])%list
  /\ parse_shop_count (snd (get_all_tasks default_settings warm_world))
     = parse_shop_count warm_world
  /\ redis_db (snd (get_all_tasks default_settings warm_world))
     = redis_db warm_world.
Proof.
  apply (cache_hit_serves_cached_value default_settings warm_world
           catalogue_dumped 21600 (PList (records_of catalogue)));
    vm_compute; reflexivity.
Defined.

(** A cached "[]" is non-empty and decodes to the empty list, yet it is
    not served: the call enters the Source Reader and returns the source
    envelope. *)
Lemma cached_empty_list_is_not_served :
  command_ok 0 stale_world = true
  /\ redis_db stale_world !! "tasks:all" = Some ("[]", 21600)
  /\ str_truthy "[]" = true
  /\ json_loads "[]" = Return (PList [])
  /\ fst (get_all_tasks default_settings stale_world)
     <> Return {| status := 200; details := "Данные получены из кеша.";
                  data := PList [] |}
  /\ fst (get_all_tasks default_settings stale_world)
     = Return (source_response (PList (records_of catalogue)))
  /\ parse_shop_count (snd (get_all_tasks default_settings stale_world))
     = S (parse_shop_count stale_world).
Proof.
  split_and!; try (vm_compute; reflexivity).
  vm_compute. discriminate.
Qed.

(** The store is unreachable for the get. *)
Lemma cache_get_error_is_a_miss_witness :
  fst (get_all_tasks default_settings unreachable_world)
  = fst (parse_shop unreachable_world)
  /\ calls (snd (get_all_tasks default_settings unreachable_world))
     = (calls unreachable_world ++ CallRedisGet "tasks:all"
          :: fetch_calls default_settings unreachable_world)%list
  /\ parse_shop_count (snd (get_all_tasks default_settings unreachable_world))
     = S (parse_shop_count unreachable_world).
Proof.
  apply (cache_get_error_is_a_miss default_settings unreachable_world
           connection_error).
  vm_compute. reflexivity.
Defined.

(** A corrupted entry, with the delete failing and the set going
    through. *)
Lemma corrupt_cache_entry_recovers_witness :
  calls (snd (get_all_tasks default_settings corrupt_world))
  = (calls corrupt_world ++ CallRedisGet "tasks:all"
       :: CallRedisDelete "tasks:all"
       :: fetch_calls default_settings corrupt_world)%list
  /\ fst (get_all_tasks default_settings corrupt_world)
     = fst (parse_shop corrupt_world)
  /\ redis_db (snd (get_all_tasks default_settings corrupt_world)) !! "tasks:all"
     = Some (catalogue_dumped, 21600).
Proof.
  destruct (corrupt_cache_entry_recovers default_settings corrupt_world
              "{not json" 21600 "Expecting value")
    as (Hcalls & Hresult & Hdb); try (vm_compute; reflexivity).
  split_and!; [exact Hcalls | exact Hresult |].
  apply (Hdb (source_response (PList (records_of catalogue))));
    vm_compute; reflexivity.
Defined.

(** A cold call whose write-back fails. *)
Lemma write_back_never_alters_the_response_witness :
  fst (get_all_tasks default_settings flaky_world) = fst (parse_shop flaky_world).
Proof.
  apply (write_back_never_alters_the_response default_settings flaky_world).
  vm_compute. discriminate.
Defined.

(** A cached "[]" is refetched and overwritten. *)
Lemma falsy_cache_entry_is_refetched_witness :
  calls (snd (get_all_tasks default_settings stale_world))
  = (calls stale_world ++ CallRedisGet "tasks:all"
       :: fetch_calls default_settings stale_world)%list
  /\ fst (get_all_tasks default_settings stale_world)
     = fst (parse_shop stale_world)
  /\ redis_db (snd (get_all_tasks default_settings stale_world)) !! "tasks:all"
     = Some (catalogue_dumped, 21600).
Proof.
  destruct (falsy_cache_entry_is_refetched default_settings stale_world
              "[]" 21600 (PList []))
    as (Hcalls & _ & Hresult & Hdb); try (vm_compute; reflexivity).
  split_and!; [exact Hcalls | exact Hresult |].
  apply (Hdb (source_response (PList (records_of catalogue))));
    vm_compute; reflexivity.
Defined.

(** The cold call and the warm call on the catalogue of three rows. *)
Lemma cold_then_warm_same_payload_witness :
  exists st1 st2,
    get_all_tasks default_settings cold_world
    = (Return (source_response (PList (records_of catalogue))), st1)
    /\ get_all_tasks default_settings st1
       = (Return (cached_response (PList (records_of catalogue))), st2)
    /\ data (cached_response (PList (records_of catalogue)))
       = PList (records_of catalogue)
    /\ parse_shop_count st1 = S (parse_shop_count cold_world)
    /\ parse_shop_count st2 = parse_shop_count st1.
Proof.
  apply (cold_then_warm_same_payload default_settings cold_world
           (source_response (PList (records_of catalogue)))
           catalogue_dumped);
    vm_compute; reflexivity.
Defined.

(** C3: the cache key holds the byte 0xFF, a non-empty value that fails
    JSON deserialization: [json.loads] raises [UnicodeDecodeError] on it,
    which the handler of line 37 does not catch.  [get_all_tasks] raises
    that exception, having issued the get and nothing else: no delete, no
    call of the Source Reader, no set.  The entry stays where it was,
    though the Source Reader, had it been called, would have returned the
    catalogue. *)
Theorem undecodable_bytes_are_not_recovered :
  redis_db undecodable_world !! "tasks:all" = Some (invalid_utf8, 21600)
  /\ str_truthy invalid_utf8 = true
  /\ json_loads invalid_utf8
     = Raise (PyException "UnicodeDecodeError" "invalid start byte")
  /\ fst (get_all_tasks default_settings undecodable_world)
     = Raise (PyException "UnicodeDecodeError" "invalid start byte")
  /\ calls (snd (get_all_tasks default_settings undecodable_world))
     = [CallRedisGet "tasks:all"]
  /\ redis_db (snd (get_all_tasks default_settings undecodable_world))
     = redis_db undecodable_world
  /\ fst (parse_shop undecodable_world)
     = Return (source_response (PList (records_of catalogue))).
Proof. split_and!; vm_compute; reflexivity. Qed.



(** A sheet with a header and no rows, on a cache miss. *)
Lemma empty_sheet_is_not_found_witness :
  fst (get_all_tasks default_settings empty_sheet_world)
  = Raise (HTTPException 404 "Такой таблицы не существует")
  /\ redis_db (snd (get_all_tasks default_settings empty_sheet_world))
     = redis_db empty_sheet_world.
Proof.
  destruct (empty_sheet_is_not_found default_settings empty_sheet_world
              {[ "Персонажи" := header_only ]} header_only)
    as (_ & _ & Hmiss & _ & _); try (vm_compute; reflexivity).
  split; [apply Hmiss|]; vm_compute; reflexivity.
Defined.

(** Where the claim on the missing or empty sheet fails: a corrupted
    entry is deleted before the Source Reader raises, so the failed call
    changes the store; and a workbook without the sheet makes [read_excel]
    raise its own [ValueError], not the 404 exception. *)
Lemma failed_read_can_change_the_cache :
  (fst (get_all_tasks default_settings corrupt_empty_sheet_world)
   = Raise (HTTPException 404 "Такой таблицы не существует")
   /\ redis_db corrupt_empty_sheet_world !! "tasks:all"
      = Some ("{not json", 21600)
   /\ redis_db (snd (get_all_tasks default_settings corrupt_empty_sheet_world))
        !! "tasks:all" = None
   /\ redis_db (snd (get_all_tasks default_settings corrupt_empty_sheet_world))
      <> redis_db corrupt_empty_sheet_world)
  /\ (files missing_sheet_world !! "PlayIT.xlsx" = Some {[ "Sheet1" := catalogue ]}
      /\ ({[ "Sheet1" := catalogue ]} : gmap string DataFrame) !! "Персонажи"
         = None
      /\ fst (parse_shop missing_sheet_world)
         = Raise (PyException "ValueError"
                    "Worksheet named 'Персонажи' not found")
      /\ fst (get_all_tasks default_settings missing_sheet_world)
         <> Raise (HTTPException 404 "Такой таблицы не существует")).
Proof.
  split; split_and!; try (vm_compute; reflexivity).
  - intros Heq. apply (f_equal (fun db => db !! "tasks:all")) in Heq.
    vm_compute in Heq. discriminate.
  - vm_compute. discriminate.
Qed.


Lemma formatting_error_is_unreachable_witness :
  records_of catalogue <> []
  /\ truthy (PList (records_of catalogue)) = true
  /\ fst (parse_shop cold_world)
     = Return (source_response (PList (records_of catalogue))).
Proof.
  destruct (formatting_error_is_unreachable cold_world
              {[ "Персонажи" := catalogue ]} catalogue catalogue_to_json
              (PList (records_of catalogue)) (records_of catalogue))
    as (Hitems & Htruthy & Hrun & _); try (vm_compute; reflexivity).
  split_and!; [exact Hitems | exact Htruthy | exact Hrun].
Defined.

End Examples.

(** * The further properties at concrete worlds *)

Section FurtherExamples.
Existing Instance JsonFragment.lib.

Example log_level_values :
  log_level_value "debug" = Return 10 /\ log_level_value "info" = Return 20
  /\ log_level_value "warning" = Return 30 /\ log_level_value "error" = Return 40
  /\ log_level_value "critical" = Return 50
  /\ log_level_value "verbose" = Raise (PyException "KeyError" "VERBOSE").
Proof. split_and!; vm_compute; reflexivity. Qed.

(** The cold call returns the source envelope of the three records. *)
Lemma returned_envelope_is_ok_and_non_empty_witness :
  status (source_response (PList (records_of catalogue))) = 200
  /\ truthy (data (source_response (PList (records_of catalogue)))) = true.
Proof.
  destruct (returned_envelope_is_ok_and_non_empty default_settings cold_world
              (source_response (PList (records_of catalogue))))
    as (Hstatus & Htruthy & _); [vm_compute; reflexivity|].
  split; [exact Hstatus | exact Htruthy].
Defined.

(** No workbook on disk and an empty cache. *)
Lemma source_failure_propagates_and_writes_nothing_witness :
  fst (get_all_tasks default_settings no_file_world)
  = Raise (PyException "FileNotFoundError"
             "[Errno 2] No such file or directory: 'PlayIT.xlsx'")
  /\ redis_db (snd (get_all_tasks default_settings no_file_world))
     = redis_db no_file_world.
Proof.
  destruct (source_failure_propagates_and_writes_nothing default_settings
              no_file_world
              (PyException "FileNotFoundError"
                 "[Errno 2] No such file or directory: 'PlayIT.xlsx'"))
    as (_ & Hmiss & _ & _); [vm_compute; reflexivity|].
  split; [apply Hmiss|]; vm_compute; reflexivity.
Defined.

(** Three calls on the warm cache. *)
Lemma warm_cache_serves_every_call_witness :
  fst (call_n default_settings 3 warm_world)
  = replicate 3 (Return (cached_response (PList (records_of catalogue))))
  /\ redis_db (snd (call_n default_settings 3 warm_world)) = redis_db warm_world
  /\ parse_shop_count (snd (call_n default_settings 3 warm_world))
     = parse_shop_count warm_world.
Proof.
  apply (warm_cache_serves_every_call default_settings 3 warm_world
           catalogue_dumped 21600 (PList (records_of catalogue)));
    vm_compute; reflexivity.
Defined.

(** Two calls on an entry of bytes that are not UTF-8. *)
Lemma undecodable_entry_fails_every_call_witness :
  fst (call_n default_settings 2 undecodable_world)
  = replicate 2 (Raise (PyException "UnicodeDecodeError"
                          "invalid start byte"))
  /\ redis_db (snd (call_n default_settings 2 undecodable_world))
     = redis_db undecodable_world
  /\ parse_shop_count (snd (call_n default_settings 2 undecodable_world))
     = parse_shop_count undecodable_world.
Proof.
  apply (undecodable_entry_fails_every_call default_settings 2
           undecodable_world invalid_utf8 21600);
    vm_compute; reflexivity.
Defined.

(** Two calls while the store fails its next four commands. *)
Lemma unreachable_store_reads_the_source_every_call_witness :
  fst (call_n default_settings 2 (down_world 4))
  = replicate 2 (fst (parse_shop (down_world 4)))
  /\ redis_db (snd (call_n default_settings 2 (down_world 4)))
     = redis_db (down_world 4)
  /\ parse_shop_count (snd (call_n default_settings 2 (down_world 4)))
     = (parse_shop_count (down_world 4) + 2)%nat.
Proof.
  apply (unreachable_store_reads_the_source_every_call default_settings 2
           (down_world 4)).
  intros i Hi. destruct i as [|[|[|[|i]]]]; [reflexivity..|simpl in Hi; lia].
Defined.

(** Three calls with the expiry set to zero. *)
Lemma non_positive_expiry_never_caches_witness :
  fst (call_n zero_expiry_settings 3 cold_world)
  = replicate 3 (fst (parse_shop cold_world))
  /\ redis_db (snd (call_n zero_expiry_settings 3 cold_world))
     = redis_db cold_world
  /\ parse_shop_count (snd (call_n zero_expiry_settings 3 cold_world))
     = (parse_shop_count cold_world + 3)%nat.
Proof.
  apply (non_positive_expiry_never_caches zero_expiry_settings 3 cold_world);
    [simpl; lia | vm_compute; reflexivity].
Defined.

(** A corrupted entry is replaced by the payload the call returns. *)
Lemma successful_call_leaves_its_payload_cached_witness :
  exists resp raw' ex',
    fst (get_all_tasks default_settings corrupt_reliable_world) = Return resp
    /\ truthy (data resp) = true
    /\ redis_db (snd (get_all_tasks default_settings corrupt_reliable_world))
         !! "tasks:all" = Some (raw', ex')
    /\ str_truthy raw' = true
    /\ json_loads raw' = Return (data resp).
Proof.
  apply (successful_call_leaves_its_payload_cached default_settings
           corrupt_reliable_world
           (source_response (PList (records_of catalogue))) catalogue_dumped);
    try (vm_compute; reflexivity).
  intros raw ex e Hdb Hloads. vm_compute in Hdb. injection Hdb as <- <-.
  vm_compute in Hloads. injection Hloads as <-. reflexivity.
Defined.

(** The workbook is deleted between the cold and the warm call. *)
Lemma next_call_ignores_the_files_witness :
  exists resp st1,
    get_all_tasks default_settings cold_world = (Return resp, st1)
    /\ fst (get_all_tasks default_settings (with_files ∅ st1))
       = Return (cached_response (data resp))
    /\ parse_shop_count (snd (get_all_tasks default_settings (with_files ∅ st1)))
       = parse_shop_count st1.
Proof.
  apply (next_call_ignores_the_files default_settings cold_world
           (source_response (PList (records_of catalogue))) catalogue_dumped ∅);
    try (vm_compute; reflexivity).
  intros raw ex e Hdb Hloads. vm_compute in Hdb. discriminate.
Defined.

(** The workbook without the sheet. *)
Lemma read_excel_errors_surface_unchanged_witness :
  exists cls msg,
    fst (read_excel file_path sheet_name missing_sheet_world)
    = Raise (PyException cls msg)
    /\ fst (parse_shop missing_sheet_world) = Raise (PyException cls msg)
    /\ (bytes_truthy (cached_value default_settings missing_sheet_world) = false ->
        fst (get_all_tasks default_settings missing_sheet_world)
        = Raise (PyException cls msg)).
Proof.
  apply (read_excel_errors_surface_unchanged default_settings
           missing_sheet_world).
  right. exists {[ "Sheet1" := catalogue ]}. split; vm_compute; reflexivity.
Defined.

End FurtherExamples.
